(** * keycloak_group_rolemapping: a shallow embedding of [main]

    Source: plugins/modules/identity/keycloak/keycloak_group_rolemapping.py

    The module reconciles the roles mapped to a Keycloak group.  Its only
    function, [main], is embedded below as a program over the calls it makes to
    [KeycloakAPI]: the client itself lives in module_utils and is not part of
    the module, so its answers are left to an arbitrary handler.  Python dicts
    are finite maps from keys to values, [None] is the [None] of [option]. *)

From stdpp Require Import gmap strings list.
From Stdlib Require Import Lia.

Open Scope string_scope.
Open Scope list_scope.

(** ** Python values *)

(** A [str] or [None]. *)
Abbreviation pystr := (option string).

(** A dict whose values are [str] or [None]: a role given in the task, or a
    role representation of the REST API restricted to its string attributes. *)
Abbreviation pydict := (gmap string (option string)).

(** [d.get(k)]: the value under [k], [None] when the key is missing. *)
Definition dict_get (d : pydict) (k : string) : pystr :=
  match d !! k with
  | Some v => v
  | None => None
  end.

Inductive py_exception :=
| TypeError   (* 'NoneType' object is not subscriptable *)
| KeyError.

(** [x[k]] where [x] is what a lookup of the client returned: a dict or
    [None]. *)
Definition subscript (x : option pydict) (k : string) : py_exception + pystr :=
  match x with
  | None => inl TypeError
  | Some d =>
      match d !! k with
      | Some v => inr v
      | None => inl KeyError
      end
  end.

(** The values the result dict holds under [proposed], [existing] and
    [end_state]: the initial [{}] or a list of roles. *)
Inductive pyvalue :=
| PyEmptyDict
| PyList (l : list pydict).

(** ** Messages

    A message is a format string together with the arguments of [%]. *)
Inductive fmt_arg :=
| ArgStr (s : pystr)
| ArgRoles (l : list pydict).

Record message := Fmt { template : string; args : list fmt_arg }.

(** ** Module parameters *)

Inductive state_t := present | absent.

Record params := {
  realm : string;                    (* default 'master' *)
  state : state_t;                   (* default 'present' *)
  gid : pystr;
  target_groupname : pystr;
  cid : pystr;
  client_id : pystr;
  roles : option (list pydict);
  check_mode : bool;                 (* module.check_mode *)
  _diff : bool                       (* module._diff *)
}.

(** ** The result dict *)

Record diff_t := { before : list pydict; after : list pydict }.

Record result := {
  changed : bool;
  msg : message;
  diff : option diff_t;              (* [None] is the initial [{}] *)
  proposed : pyvalue;
  existing : pyvalue;
  end_state : pyvalue
}.

(** [dict(changed=False, msg='', diff={}, proposed={}, existing={}, end_state={})] *)
Definition initial_result : result :=
  {| changed := false; msg := Fmt "" []; diff := None;
     proposed := PyEmptyDict; existing := PyEmptyDict; end_state := PyEmptyDict |}.

Definition set_changed (b : bool) (r : result) : result :=
  {| changed := b; msg := msg r; diff := diff r;
     proposed := proposed r; existing := existing r; end_state := end_state r |}.
Definition set_msg (m : message) (r : result) : result :=
  {| changed := changed r; msg := m; diff := diff r;
     proposed := proposed r; existing := existing r; end_state := end_state r |}.
Definition set_diff (d : diff_t) (r : result) : result :=
  {| changed := changed r; msg := msg r; diff := Some d;
     proposed := proposed r; existing := existing r; end_state := end_state r |}.
Definition set_proposed (v : pyvalue) (r : result) : result :=
  {| changed := changed r; msg := msg r; diff := diff r;
     proposed := v; existing := existing r; end_state := end_state r |}.
Definition set_existing (v : pyvalue) (r : result) : result :=
  {| changed := changed r; msg := msg r; diff := diff r;
     proposed := proposed r; existing := v; end_state := end_state r |}.
Definition set_end_state (v : pyvalue) (r : result) : result :=
  {| changed := changed r; msg := msg r; diff := diff r;
     proposed := proposed r; existing := existing r; end_state := v |}.

(** How an invocation ends. *)
Inductive outcome :=
| exit_json (kwargs : result)        (* module.exit_json with the result dict *)
| exit_json_msg (m : message)        (* module.exit_json(msg=...) *)
| fail_json (m : message)            (* module.fail_json(msg=...) *)
| upstream_failure (m : string)      (* the client gave up inside a call *)
| uncaught (e : py_exception).       (* a traceback *)

(** ** Calls to the Keycloak client *)

Inductive kc_call :=
| get_token
| get_group_by_name (name : pystr) (realm : string)
| get_client_id (client_id : pystr) (realm : string)
| get_realm_role (name : pystr) (realm : string)
| get_client_role_id_by_name (cid name : pystr) (realm : string)
| get_realm_group_rolemapping_by_id (gid rid : pystr) (realm : string)
| get_client_group_rolemapping_by_id (gid cid rid : pystr) (realm : string)
| get_realm_group_available_rolemappings (gid : pystr) (realm : string)
| get_realm_group_composite_rolemappings (gid : pystr) (realm : string)
| get_client_group_available_rolemappings (gid cid : pystr) (realm : string)
| get_client_group_composite_rolemappings (gid cid : pystr) (realm : string)
| add_group_rolemapping (gid cid : pystr) (role_rep : list pydict) (realm : string)
| delete_group_rolemapping (uid cid : pystr) (role_rep : list pydict) (realm : string).

(** Modelled from the spec: [KeycloakAPI] and [get_token] live in module_utils,
    outside this module.  What each call returns follows the interface the
    specification lists for the directory service client: a lookup returns a
    representation or [None], a listing returns a list, a change returns
    nothing.  A lookup of a role id returns the id or [None]. *)
Definition resp (c : kc_call) : Type :=
  match c with
  | get_token => unit
  | get_group_by_name _ _ => option pydict
  | get_client_id _ _ => pystr
  | get_realm_role _ _ => option pydict
  | get_client_role_id_by_name _ _ _ => pystr
  | get_realm_group_rolemapping_by_id _ _ _ => option pydict
  | get_client_group_rolemapping_by_id _ _ _ _ => option pydict
  | get_realm_group_available_rolemappings _ _ => list pydict
  | get_realm_group_composite_rolemappings _ _ => list pydict
  | get_client_group_available_rolemappings _ _ _ => list pydict
  | get_client_group_composite_rolemappings _ _ _ => list pydict
  | add_group_rolemapping _ _ _ _ => unit
  | delete_group_rolemapping _ _ _ _ => unit
  end.

(** Calls that change the role mappings held by the server. *)
Definition is_mutating (c : kc_call) : bool :=
  match c with
  | add_group_rolemapping _ _ _ _ | delete_group_rolemapping _ _ _ _ => true
  | _ => false
  end.

(** Calls that fetch the available or the assigned roles of the group. *)
Definition is_fetch (c : kc_call) : bool :=
  match c with
  | get_realm_group_available_rolemappings _ _
  | get_realm_group_composite_rolemappings _ _
  | get_client_group_available_rolemappings _ _ _
  | get_client_group_composite_rolemappings _ _ _ => true
  | _ => false
  end.

(** Calls that look a single role up. *)
Definition is_role_lookup (c : kc_call) : bool :=
  match c with
  | get_realm_role _ _
  | get_client_role_id_by_name _ _ _
  | get_realm_group_rolemapping_by_id _ _ _
  | get_client_group_rolemapping_by_id _ _ _ _ => true
  | _ => false
  end.

(** Calls served by [KeycloakAPI]; [get_token] talks to the token endpoint
    before the client exists. *)
Definition is_kc (c : kc_call) : bool :=
  match c with
  | get_token => false
  | _ => true
  end.

(** ** Programs

    A program returns, ends the invocation, or calls the client and goes on
    with the answer. *)
Inductive prog (A : Type) : Type :=
| Ret (a : A)
| Halt (o : outcome)
| Call (c : kc_call) (k : resp c -> prog A).
Arguments Ret {A} a.
Arguments Halt {A} o.
Arguments Call {A} c k.

Fixpoint bind {A B} (m : prog A) (f : A -> prog B) : prog B :=
  match m with
  | Ret a => f a
  | Halt o => Halt o
  | Call c k => Call c (fun r => bind (k r) f)
  end.

#[global] Instance prog_ret : MRet prog := @Ret.
#[global] Instance prog_bind : MBind prog := fun A B f m => bind m f.

Definition call (c : kc_call) : prog (resp c) := Call c Ret.

(** A value or an uncaught exception. *)
Definition raise_or_ret {A} (x : py_exception + A) : prog A :=
  match x with
  | inl e => Halt (uncaught e)
  | inr a => Ret a
  end.

(** ** Running a program against a server *)

(** A call returns, or the client gives up on an error of the server and ends
    the invocation itself. *)
Inductive kc_reply (A : Type) :=
| returned (a : A)
| failed (m : string).
Arguments returned {A} a.
Arguments failed {A} m.

Record event := Ev { ev_call : kc_call; ev_reply : kc_reply (resp ev_call) }.

Definition handler (S : Type) : Type :=
  forall c : kc_call, S -> kc_reply (resp c) * S.

Fixpoint run {S A} (m : prog A) (h : handler S) (s : S)
  : (A + outcome) * list event * S :=
  match m with
  | Ret a => (inl a, [], s)
  | Halt o => (inr o, [], s)
  | Call c k =>
      let '(r, s1) := h c s in
      match r with
      | failed e => (inr (upstream_failure e), [Ev c r], s1)
      | returned a =>
          let '(x, t, s2) := run (k a) h s1 in
          (x, Ev c r :: t, s2)
      end
  end.

Definition count_calls (f : kc_call -> bool) (t : list event) : nat :=
  length (List.filter (fun e => f (ev_call e)) t).

Definition no_calls (f : kc_call -> bool) (t : list event) : Prop :=
  Forall (fun e => f (ev_call e) = false) t.

(** ** [main] *)

Definition is_None {A} (x : option A) : bool :=
  match x with
  | None => true
  | Some _ => false
  end.

(** Lines 258-268: the group id, looked up by name when [gid] is missing. *)
Definition resolve_group (p : params) : prog pystr :=
  if is_None (gid p) && is_None (target_groupname p) then
    Halt (fail_json (Fmt "Either the `target_groupname` or `gid` has to be specified." []))
  else if is_None (gid p) then
    group_rep ← call (get_group_by_name (target_groupname p) (realm p));
    match group_rep with
    | Some d => Ret (dict_get d "id")
    | None =>
        Halt (fail_json (Fmt "Could not fetch group for name %s:"
                             [ArgStr (target_groupname p)]))
    end
  else Ret (gid p).

(** Lines 270-273: the client id, looked up when only [client_id] is given. *)
Definition resolve_client (p : params) : prog pystr :=
  if is_None (cid p) && negb (is_None (client_id p)) then
    c ← call (get_client_id (client_id p) (realm p));
    if is_None c then
      Halt (fail_json (Fmt "Could not fetch client %s:" [ArgStr (client_id p)]))
    else Ret c
  else Ret (cid p).

Definition could_not_fetch_role (what : pystr) (p : params) : message :=
  Fmt "Could not fetch role %s for client_id %s or realm %s"
      [ArgStr what; ArgStr (client_id p); ArgStr (Some (realm p))].

(** Lines 279-298: the body of the loop over [roles]; the dict is updated in
    place, the updated dict is returned. *)
Definition resolve_role (p : params) (g c : pystr) (role : pydict) : prog pydict :=
  if is_None (dict_get role "name") && is_None (dict_get role "id") then
    Halt (fail_json (Fmt "Either the `name` or `id` has to be specified on each role." []))
  else if is_None (dict_get role "id") then
    (* Fetch missing role_id *)
    role_id ←
      (if is_None c then
         rep ← call (get_realm_role (dict_get role "name") (realm p));
         raise_or_ret (subscript rep "id")
       else
         call (get_client_role_id_by_name c (dict_get role "name") (realm p)));
    if negb (is_None role_id) then Ret (<["id" := role_id]> role)
    else Halt (fail_json (could_not_fetch_role (dict_get role "name") p))
  else
    (* Fetch missing role_name *)
    name ←
      (if is_None c then
         rep ← call (get_realm_group_rolemapping_by_id g (dict_get role "id") (realm p));
         raise_or_ret (subscript rep "name")
       else
         rep ← call (get_client_group_rolemapping_by_id g c (dict_get role "id") (realm p));
         raise_or_ret (subscript rep "name"));
    let role := <["name" := name]> role in
    if is_None (dict_get role "name") then
      Halt (fail_json (could_not_fetch_role (dict_get role "id") p))
    else Ret role.

(** [for x in l] with a body that may end the invocation; the elements are
    gone through in list order. *)
Fixpoint for_each {A B} (body : A -> prog B) (l : list A) : prog (list B) :=
  match l with
  | [] => Ret []
  | x :: rest =>
      x' ← body x;
      rest' ← for_each body rest;
      Ret (x' :: rest')
  end.

(** Line 278: the loop over [roles].  The roles of [roles] are the very dicts
    the loop writes to, so afterwards [roles] is the list returned here. *)
Definition resolve_roles (p : params) (g c : pystr) (l : list pydict)
  : prog (list pydict) :=
  for_each (resolve_role p g c) l.

(** Lines 300-306: the two sets the roles are compared with. *)
Definition get_rolemappings (p : params) (g c : pystr)
  : prog (list pydict * list pydict) :=
  if is_None c then
    available_roles_before ← call (get_realm_group_available_rolemappings g (realm p));
    assigned_roles_before ← call (get_realm_group_composite_rolemappings g (realm p));
    Ret (available_roles_before, assigned_roles_before)
  else
    available_roles_before ← call (get_client_group_available_rolemappings g c (realm p));
    assigned_roles_before ← call (get_client_group_composite_rolemappings g c (realm p));
    Ret (available_roles_before, assigned_roles_before).

(** What [main] knows when it reaches line 308. *)
Record resolved := {
  r_gid : pystr;
  r_cid : pystr;
  r_roles : list pydict;
  available_roles_before : list pydict;
  assigned_roles_before : list pydict
}.

(** Lines 242-273: the token, the group id and the client id. *)
Definition resolve_ids (p : params) : prog (pystr * pystr) :=
  _ ← call get_token;
  g ← resolve_group p;
  c ← resolve_client p;
  Ret (g, c).

(** Lines 275-298. *)
Definition resolve_all_roles (p : params) (g c : pystr) : prog (list pydict) :=
  match roles p with
  | None => Halt (exit_json_msg (Fmt "Nothing to do (no roles specified)." []))
  | Some l => resolve_roles p g c l
  end.

(** Lines 242-298: everything [main] does before it fetches the role
    mappings. *)
Definition resolve (p : params) : prog (pystr * pystr * list pydict) :=
  '(g, c) ← resolve_ids p;
  l ← resolve_all_roles p g c;
  Ret (g, c, l).

(** Lines 242-306. *)
Definition prelude (p : params) : prog resolved :=
  '(g, c, l) ← resolve p;
  '(available, assigned) ← get_rolemappings p g c;
  Ret {| r_gid := g; r_cid := c; r_roles := l;
         available_roles_before := available;
         assigned_roles_before := assigned |}.

(** Lines 311-328: the roles to add or to remove. *)
Definition entry (role : pydict) : pydict :=
  <["id" := dict_get role "id"]> (<["name" := dict_get role "name"]> ∅).

Definition append_matches (role : pydict) (others : list pydict)
  (update_roles : list pydict) : list pydict :=
  fold_left
    (fun acc other =>
       if decide (dict_get role "name" = dict_get other "name")
       then acc ++ [entry role] else acc)
    others update_roles.

Definition compute_update_roles (st : state_t) (l available assigned : list pydict)
  : list pydict :=
  fold_left
    (fun update_roles role =>
       match st with
       | present => append_matches role available update_roles
       | absent => append_matches role assigned update_roles
       end)
    l [].

Definition update_roles (p : params) (r : resolved) : list pydict :=
  compute_update_roles (state p) (r_roles r)
    (available_roles_before r) (assigned_roles_before r).

(** Lines 340-343 and 355-358. *)
Definition get_assigned_roles_after (p : params) (g c : pystr) : prog (list pydict) :=
  if is_None c then call (get_realm_group_composite_rolemappings g (realm p))
  else call (get_client_group_composite_rolemappings g c (realm p)).

(** Lines 308-365. *)
Definition finish (p : params) (r : resolved) : prog Empty_set :=
  let result := set_existing (PyList (assigned_roles_before r)) initial_result in
  let result := set_proposed (PyList (r_roles r)) result in
  let update_roles := update_roles p r in
  if negb (Nat.eqb (length update_roles) 0) then
    match state p with
    | present =>
        (* Assign roles *)
        let result := set_changed true result in
        let result :=
          if _diff p
          then set_diff {| before := assigned_roles_before r; after := update_roles |} result
          else result in
        if check_mode p then Halt (exit_json result)
        else
          _ ← call (add_group_rolemapping (r_gid r) (r_cid r) update_roles (realm p));
          let result :=
            set_msg (Fmt "Roles %s assigned to groupId %s."
                         [ArgRoles update_roles; ArgStr (r_gid r)]) result in
          assigned_roles_after ← get_assigned_roles_after p (r_gid r) (r_cid r);
          let result := set_end_state (PyList assigned_roles_after) result in
          Halt (exit_json result)
    | absent =>
        (* Remove mapping of role *)
        let result := set_changed true result in
        let result :=
          if _diff p
          then set_diff {| before := assigned_roles_before r; after := update_roles |} result
          else result in
        if check_mode p then Halt (exit_json result)
        else
          _ ← call (delete_group_rolemapping (r_gid r) (r_cid r) update_roles (realm p));
          let result :=
            set_msg (Fmt "Roles %s removed from groupId %s."
                         [ArgRoles update_roles; ArgStr (r_gid r)]) result in
          assigned_roles_after ← get_assigned_roles_after p (r_gid r) (r_cid r);
          let result := set_end_state (PyList assigned_roles_after) result in
          Halt (exit_json result)
    end
  else
    (* Do nothing *)
    let result := set_changed false result in
    let result :=
      set_msg (Fmt "Nothing to do, roles %s are correctly mapped to group %s."
                   [ArgRoles (r_roles r); ArgStr (target_groupname p)]) result in
    Halt (exit_json result).

Definition main (p : params) : prog Empty_set :=
  r ← prelude p;
  finish p r.

(** The outcome of an invocation, the calls it made and the server it leaves
    behind. *)
Definition run_main {S} (p : params) (h : handler S) (s : S)
  : outcome * list event * S :=
  match run (main p) h s with
  | (inr o, t, s') => (o, t, s')
  | (inl e, _, _) => match e with end
  end.

(** ** A sample server

    One group in one scope: the roles that exist, and the roles mapped to the
    group.  It is used to run [main] on concrete inputs; the theorems about
    [main] hold for every handler. *)
Module Server.

Record t := {
  groups : list (string * pydict);       (* group name, representation *)
  clients : list (string * string);      (* client_id, internal id *)
  all_roles : list pydict;
  assigned : list pydict
}.

Definition has_name (n : pystr) (d : pydict) : bool :=
  bool_decide (dict_get d "name" = n).
Definition has_id (i : pystr) (d : pydict) : bool :=
  bool_decide (dict_get d "id" = i).

Definition named_in (l : list pydict) (d : pydict) : bool :=
  existsb (has_name (dict_get d "name")) l.

Definition assoc {A} (k : pystr) (l : list (string * A)) : option A :=
  match k with
  | None => None
  | Some k => snd <$> List.find (fun x => bool_decide (fst x = k)) l
  end.

Definition with_assigned (l : list pydict) (s : t) : t :=
  {| groups := groups s; clients := clients s;
     all_roles := all_roles s; assigned := l |}.

Definition handle : handler t :=
  fun c s =>
    match c return kc_reply (resp c) * t with
    | get_token => (returned (), s)
    | get_group_by_name name _ => (returned (assoc name (groups s)), s)
    | get_client_id client_id _ => (returned (assoc client_id (clients s)), s)
    | get_realm_role name _ =>
        (returned (List.find (has_name name) (all_roles s)), s)
    | get_client_role_id_by_name _ name _ =>
        (returned (d ← List.find (has_name name) (all_roles s); dict_get d "id"), s)
    | get_realm_group_rolemapping_by_id _ rid _ =>
        (returned (List.find (has_id rid) (assigned s)), s)
    | get_client_group_rolemapping_by_id _ _ rid _ =>
        (returned (List.find (has_id rid) (assigned s)), s)
    | get_realm_group_available_rolemappings _ _ =>
        (returned (List.filter (fun d => negb (named_in (assigned s) d)) (all_roles s)), s)
    | get_realm_group_composite_rolemappings _ _ => (returned (assigned s), s)
    | get_client_group_available_rolemappings _ _ _ =>
        (returned (List.filter (fun d => negb (named_in (assigned s) d)) (all_roles s)), s)
    | get_client_group_composite_rolemappings _ _ _ => (returned (assigned s), s)
    | add_group_rolemapping _ _ role_rep _ =>
        (returned (),
         with_assigned
           (assigned s ++
              List.filter (fun d => named_in role_rep d && negb (named_in (assigned s) d))
                (all_roles s)) s)
    | delete_group_rolemapping _ _ role_rep _ =>
        (returned (),
         with_assigned (List.filter (fun d => negb (named_in role_rep d)) (assigned s)) s)
    end.

Definition role (id name : string) : pydict :=
  <["id" := Some id]> (<["name" := Some name]> ∅).

(** A role as the task gives it when only the name is set. *)
Definition by_name (name : string) : pydict :=
  <["id" := None]> (<["name" := Some name]> ∅).

(** The server of the examples: two roles exist, none is mapped. *)
Definition s0 : t :=
  {| groups := [("group1", <["id" := Some "g1"]> (<["name" := Some "group1"]> ∅))];
     clients := [("client1", "c1")];
     all_roles := [role "r1" "role_name1"; role "r2" "role_name2"];
     assigned := [] |}.

Definition task (st : state_t) (l : list pydict) : params :=
  {| realm := "master"; state := st; gid := Some "g1"; target_groupname := None;
     cid := None; client_id := None; roles := Some l;
     check_mode := false; _diff := false |}.

(** A role as the task gives it when only the id is set. *)
Definition by_id (id : string) : pydict :=
  <["id" := Some id]> (<["name" := None]> ∅).

(** A role of the task with neither of the two. *)
Definition nameless : pydict :=
  <["id" := None]> (<["name" := None]> ∅).

(** The same server once role_name1 is mapped to the group. *)
Definition s1 : t := with_assigned [role "r1" "role_name1"] s0.

(** The same task for the roles of a client given by its [client_id]. *)
Definition client_task (st : state_t) (l : list pydict) : params :=
  {| realm := "master"; state := st; gid := Some "g1"; target_groupname := None;
     cid := None; client_id := Some "client1"; roles := Some l;
     check_mode := false; _diff := false |}.

(** Tasks that leave the group or the client to be looked up, and give no
    roles. *)
Definition no_roles_task : params :=
  {| realm := "master"; state := present; gid := None;
     target_groupname := Some "group1"; cid := None; client_id := Some "client1";
     roles := None; check_mode := false; _diff := false |}.

Definition lost_group_task : params :=
  {| realm := "master"; state := present; gid := None;
     target_groupname := Some "nogroup"; cid := None; client_id := None;
     roles := None; check_mode := false; _diff := false |}.

Definition lost_client_task : params :=
  {| realm := "master"; state := present; gid := Some "g1";
     target_groupname := None; cid := None; client_id := Some "nobody";
     roles := None; check_mode := false; _diff := false |}.

(** The task with [_diff] set. *)
Definition diff_task (st : state_t) (l : list pydict) : params :=
  {| realm := "master"; state := st; gid := Some "g1"; target_groupname := None;
     cid := None; client_id := None; roles := Some l;
     check_mode := false; _diff := true |}.

End Server.

(** ** The vocabulary of the properties *)

(** No call of the program satisfies [f], whatever the server answers. *)
Inductive avoids {A} (f : kc_call -> bool) : prog A -> Prop :=
| avoids_Ret a : avoids f (Ret a)
| avoids_Halt o : avoids f (Halt o)
| avoids_Call c k :
    f c = false -> (forall r, avoids f (k r)) -> avoids f (Call c k).

(** Whenever the program itself ends the invocation, the outcome satisfies
    [P]. *)
Inductive halts_only {A} (P : outcome -> Prop) : prog A -> Prop :=
| halts_Ret a : halts_only P (Ret a)
| halts_Halt o : P o -> halts_only P (Halt o)
| halts_Call c k : (forall r, halts_only P (k r)) -> halts_only P (Call c k).

(** A failure: neither of the two ways to exit. *)
Definition is_failure (o : outcome) : Prop :=
  match o with
  | exit_json _ | exit_json_msg _ => False
  | _ => True
  end.

(** Not the exit with the result dict. *)
Definition no_result (o : outcome) : Prop :=
  match o with
  | exit_json _ => False
  | _ => True
  end.

(** The calls the module makes from line 300 on: the fetches of the role
    mappings and the calls that change them. *)
Definition fetches_or_mutates (c : kc_call) : bool := is_fetch c || is_mutating c.

(** The test of lines 316 and 324. *)
Definition same_name (role other : pydict) : bool :=
  bool_decide (dict_get role "name" = dict_get other "name").

(** The roles of a comparison set that carry the name of [role]. *)
Definition matching (role : pydict) (others : list pydict) : list pydict :=
  List.filter (same_name role) others.

(** The set a state compares with. *)
Definition compared_with (st : state_t) (available assigned : list pydict) :=
  match st with
  | present => available
  | absent => assigned
  end.

(** The call of line 338 or of line 353. *)
Definition mutation (p : params) (r : resolved) : kc_call :=
  match state p with
  | present => add_group_rolemapping (r_gid r) (r_cid r) (update_roles p r) (realm p)
  | absent => delete_group_rolemapping (r_gid r) (r_cid r) (update_roles p r) (realm p)
  end.

(** The call of lines 340-343 and 355-358. *)
Definition refetch (p : params) (r : resolved) : kc_call :=
  match r_cid r with
  | None => get_realm_group_composite_rolemappings (r_gid r) (realm p)
  | Some _ => get_client_group_composite_rolemappings (r_gid r) (r_cid r) (realm p)
  end.

(** The roles a fetch of the assigned roles returned. *)
Definition fetched_roles (e : event) : option (list pydict) :=
  match e with
  | Ev (get_realm_group_composite_rolemappings _ _) (returned l) => Some l
  | Ev (get_client_group_composite_rolemappings _ _ _) (returned l) => Some l
  | _ => None
  end.

(** The call returned. *)
Definition succeeded (e : event) : bool :=
  match ev_reply e with
  | returned _ => true
  | failed _ => false
  end.

(** The result dict at line 310. *)
Definition result_before (r : resolved) : result :=
  set_proposed (PyList (r_roles r))
    (set_existing (PyList (assigned_roles_before r)) initial_result).

(** The result dict once [changed] and [diff] are set (lines 333-335 and
    348-350). *)
Definition result_changed (p : params) (r : resolved) : result :=
  let result := set_changed true (result_before r) in
  if _diff p
  then set_diff {| before := assigned_roles_before r; after := update_roles p r |} result
  else result.

(** The messages of lines 339 and 354. *)
Definition msg_changed (p : params) (r : resolved) : message :=
  match state p with
  | present =>
      Fmt "Roles %s assigned to groupId %s." [ArgRoles (update_roles p r); ArgStr (r_gid r)]
  | absent =>
      Fmt "Roles %s removed from groupId %s." [ArgRoles (update_roles p r); ArgStr (r_gid r)]
  end.

(** The message of line 364. *)
Definition msg_nothing (p : params) (r : resolved) : message :=
  Fmt "Nothing to do, roles %s are correctly mapped to group %s."
      [ArgRoles (r_roles r); ArgStr (target_groupname p)].

(** A role with neither a name nor an id. *)
Definition unnamed (role : pydict) : Prop :=
  dict_get role "name" = None /\ dict_get role "id" = None.

(** The message of line 280. *)
Definition invalid_role : message :=
  Fmt "Either the `name` or `id` has to be specified on each role." [].

(** What the loop has done to a role it went through: it has written the id it
    found, or, when the id was given, the name it found. *)
Definition resolved_from (role role' : pydict) : Prop :=
  (dict_get role "id" = None /\ exists i, role' = <["id" := Some i]> role) \/
  (dict_get role "id" <> None /\ exists n, role' = <["name" := Some n]> role).

(** The lookups lines 263-273 make. *)
Definition id_lookups (p : params) : nat :=
  (if is_None (gid p) then 1 else 0) +
  (if is_None (cid p) && negb (is_None (client_id p)) then 1 else 0).

(** The same task, run with or without check mode. *)
Definition with_check_mode (b : bool) (p : params) : params :=
  {| realm := realm p; state := state p; gid := gid p;
     target_groupname := target_groupname p; cid := cid p; client_id := client_id p;
     roles := roles p; check_mode := b; _diff := _diff p |}.

(** The lookup [e] the loop made for [role] (lines 282-298) and the role
    [role'] it left behind.  For a role without an id: the realm role looked
    up by the name, whose ['id'] is written into the role, or, with a client,
    the id looked up by the name, which is written into the role.  For a role
    with an id: the mapping of the group looked up by that id, whose ['name']
    replaces the name of the role. *)
Definition looked_up (p : params) (g c : pystr) (role : pydict) (e : event)
  (role' : pydict) : Prop :=
  match dict_get role "id", c with
  | None, None =>
      exists d i,
        e = Ev (get_realm_role (dict_get role "name") (realm p)) (returned (Some d)) /\
        d !! "id" = Some (Some i) /\ role' = <["id" := Some i]> role
  | None, Some _ =>
      exists i,
        e = Ev (get_client_role_id_by_name c (dict_get role "name") (realm p))
               (returned (Some i)) /\
        role' = <["id" := Some i]> role
  | Some _, None =>
      exists d n,
        e = Ev (get_realm_group_rolemapping_by_id g (dict_get role "id") (realm p))
               (returned (Some d)) /\
        d !! "name" = Some (Some n) /\ role' = <["name" := Some n]> role
  | Some _, Some _ =>
      exists d n,
        e = Ev (get_client_group_rolemapping_by_id g c (dict_get role "id") (realm p))
               (returned (Some d)) /\
        d !! "name" = Some (Some n) /\ role' = <["name" := Some n]> role
  end.

(** C2 as the specification words it: a role without name and id makes the
    module fail before the client is asked anything. *)
Definition validates_before_any_call : Prop :=
  forall (p : params) (l : list pydict) (bad : pydict),
    roles p = Some l -> bad ∈ l -> unnamed bad ->
    forall (S : Type) (h : handler S) (s : S),
      (run_main p h s).1.1 = fail_json invalid_role /\
      count_calls is_kc (run_main p h s).1.2 = 0.

(** C9 as the specification words it: [proposed] is the list of roles the
    task gave. *)
Definition proposed_as_supplied : Prop :=
  forall (p : params) (l : list pydict) (S : Type) (h : handler S) (s : S) res t s',
    roles p = Some l ->
    run_main p h s = (exit_json res, t, s') ->
    proposed res = PyList l.

(** ** More vocabulary: what a call is about *)

(** The lookup of the group by its name (line 264). *)
Definition is_group_lookup (c : kc_call) : bool :=
  match c with
  | get_group_by_name _ _ => true
  | _ => false
  end.

(** The lookup of the client by its [client_id] (line 271). *)
Definition is_client_lookup (c : kc_call) : bool :=
  match c with
  | get_client_id _ _ => true
  | _ => false
  end.

(** The [realm] argument of a call. *)
Definition call_realm (c : kc_call) : option string :=
  match c with
  | get_token => None
  | get_group_by_name _ r | get_client_id _ r | get_realm_role _ r
  | get_client_role_id_by_name _ _ r
  | get_realm_group_rolemapping_by_id _ _ r
  | get_client_group_rolemapping_by_id _ _ _ r
  | get_realm_group_available_rolemappings _ r
  | get_realm_group_composite_rolemappings _ r
  | get_client_group_available_rolemappings _ _ r
  | get_client_group_composite_rolemappings _ _ r
  | add_group_rolemapping _ _ _ r
  | delete_group_rolemapping _ _ _ r => Some r
  end.

(** The group id argument of a call ([gid], or [uid] for the deletion). *)
Definition call_gid (c : kc_call) : option pystr :=
  match c with
  | get_realm_group_rolemapping_by_id g _ _
  | get_client_group_rolemapping_by_id g _ _ _
  | get_realm_group_available_rolemappings g _
  | get_realm_group_composite_rolemappings g _
  | get_client_group_available_rolemappings g _ _
  | get_client_group_composite_rolemappings g _ _
  | add_group_rolemapping g _ _ _
  | delete_group_rolemapping g _ _ _ => Some g
  | _ => None
  end.

(** A call made for another realm than the task's. *)
Definition other_realm (p : params) (c : kc_call) : bool :=
  match call_realm c with
  | Some r => negb (bool_decide (r = realm p))
  | None => false
  end.

(** A call made for another group than [g]. *)
Definition other_group (g : pystr) (c : kc_call) : bool :=
  match call_gid c with
  | Some g' => negb (bool_decide (g' = g))
  | None => false
  end.

(** Calls about the roles of the realm: the realm variants of the client, and
    a change made with [cid=None]. *)
Definition is_realm_scoped (c : kc_call) : bool :=
  match c with
  | get_realm_role _ _
  | get_realm_group_rolemapping_by_id _ _ _
  | get_realm_group_available_rolemappings _ _
  | get_realm_group_composite_rolemappings _ _ => true
  | add_group_rolemapping _ c _ _ | delete_group_rolemapping _ c _ _ => is_None c
  | _ => false
  end.

(** Calls about the roles of a client. *)
Definition is_client_scoped (c : kc_call) : bool :=
  match c with
  | get_client_role_id_by_name _ _ _
  | get_client_group_rolemapping_by_id _ _ _ _
  | get_client_group_available_rolemappings _ _ _
  | get_client_group_composite_rolemappings _ _ _ => true
  | add_group_rolemapping _ c _ _ | delete_group_rolemapping _ c _ _ => negb (is_None c)
  | _ => false
  end.

(** The roles a call adds or removes. *)
Definition role_rep_of (c : kc_call) : option (list pydict) :=
  match c with
  | add_group_rolemapping _ _ l _ | delete_group_rolemapping _ _ l _ => Some l
  | _ => None
  end.

(** A role with both a name and an id. *)
Definition has_name_and_id (role : pydict) : Prop :=
  dict_get role "name" <> None /\ dict_get role "id" <> None.

(** What lines 258-273 leave in [gid] and [cid]: a [gid] that was given is
    kept, and so is a [cid] that was given or that cannot be looked up for
    want of a [client_id]; a [cid] that was looked up is not [None]. *)
Definition ids_ok (p : params) (g c : pystr) : Prop :=
  (gid p <> None -> g = gid p) /\
  (cid p <> None \/ client_id p = None -> c = cid p) /\
  (cid p = None -> client_id p <> None -> c <> None).

(** A call that lines 275-365 do not make once the group is [g] and the
    client is [c]: the request of the token, the lookup of the group or of the
    client, a call for another group, client or realm, the realm variant of a
    call when there is a client, or the client variant when there is none. *)
Definition wrong_call (p : params) (g c : pystr) (c' : kc_call) : bool :=
  negb
    match c' with
    | get_token | get_group_by_name _ _ | get_client_id _ _ => false
    | get_realm_role _ r => is_None c && bool_decide (r = realm p)
    | get_client_role_id_by_name c0 _ r =>
        negb (is_None c) && bool_decide (c0 = c) && bool_decide (r = realm p)
    | get_realm_group_rolemapping_by_id g0 _ r
    | get_realm_group_available_rolemappings g0 r
    | get_realm_group_composite_rolemappings g0 r =>
        is_None c && bool_decide (g0 = g) && bool_decide (r = realm p)
    | get_client_group_rolemapping_by_id g0 c0 _ r
    | get_client_group_available_rolemappings g0 c0 r
    | get_client_group_composite_rolemappings g0 c0 r =>
        negb (is_None c) && bool_decide (g0 = g) && bool_decide (c0 = c)
        && bool_decide (r = realm p)
    | add_group_rolemapping g0 c0 _ r | delete_group_rolemapping g0 c0 _ r =>
        bool_decide (g0 = g) && bool_decide (c0 = c) && bool_decide (r = realm p)
    end.

(** The calls of lines 275-365. *)
Definition is_later_call (c : kc_call) : bool :=
  is_role_lookup c || is_fetch c || is_mutating c.

(** * Properties *)

(** ** Running programs *)

Section Run.
Context {S : Type} (h : handler S).

Lemma run_call (c : kc_call) (s : S) :
  run (call c) h s =
  match h c s with
  | (returned a, s1) => (inl a, [Ev c (returned a)], s1)
  | (failed e, s1) => (inr (upstream_failure e), [Ev c (failed e)], s1)
  end.
Proof.
  unfold call. simpl. destruct (h c s) as [[a|e] s1]; reflexivity.
Qed.

Lemma run_bind {A B} (m : prog A) (f : A -> prog B) (s : S) :
  run (m ≫= f) h s =
  match run m h s with
  | (inl a, t, s1) => let '(x, t', s2) := run (f a) h s1 in (x, t ++ t', s2)
  | (inr o, t, s1) => (inr o, t, s1)
  end.
Proof.
  unfold mbind, prog_bind. revert s.
  induction m as [a|o|c k IH]; intros s; simpl.
  - destruct (run (f a) h s) as [[x t'] s2]. reflexivity.
  - reflexivity.
  - destruct (h c s) as [[a|e] s1]; [|reflexivity].
    rewrite IH. destruct (run (k a) h s1) as [[[b|o] t] s2]; [|reflexivity].
    destruct (run (f b) h s2) as [[x t'] s3]. reflexivity.
Qed.

Lemma run_bind_inl {A B} (m : prog A) (f : A -> prog B) s b t s' :
  run (m ≫= f) h s = (inl b, t, s') ->
  exists a t1 s1 t2,
    run m h s = (inl a, t1, s1) /\ run (f a) h s1 = (inl b, t2, s') /\ t = t1 ++ t2.
Proof.
  rewrite run_bind. destruct (run m h s) as [[[a|o] t1] s1]; [|discriminate].
  destruct (run (f a) h s1) as [[x t2] s2] eqn:E. intros [= -> <- ->].
  exists a, t1, s1, t2. auto.
Qed.

Lemma run_bind_inr {A B} (m : prog A) (f : A -> prog B) s o t s' :
  run (m ≫= f) h s = (inr o, t, s') ->
  run m h s = (inr o, t, s') \/
  exists a t1 s1 t2,
    run m h s = (inl a, t1, s1) /\ run (f a) h s1 = (inr o, t2, s') /\ t = t1 ++ t2.
Proof.
  rewrite run_bind. destruct (run m h s) as [[[a|o1] t1] s1].
  - destruct (run (f a) h s1) as [[x t2] s2] eqn:E. intros [= -> <- ->].
    right. exists a, t1, s1, t2. auto.
  - intros [= -> -> ->]. left. reflexivity.
Qed.

Lemma run_call_inl (c : kc_call) s a t s' :
  run (call c) h s = (inl a, t, s') ->
  h c s = (returned a, s') /\ t = [Ev c (returned a)].
Proof.
  rewrite run_call. destruct (h c s) as [[a1|e] s1]; [|discriminate].
  intros [= -> <- ->]. auto.
Qed.

Lemma run_raise_or_ret_inl {A} (x : py_exception + A) s a t s' :
  run (raise_or_ret x) h s = (inl a, t, s') -> x = inr a /\ t = [] /\ s' = s.
Proof. destruct x; simpl; [discriminate|]. intros [= -> <- <-]. auto. Qed.

End Run.

(** ** Which calls a program can make *)

Lemma avoids_bind {A B} f (m : prog A) (g : A -> prog B) :
  avoids f m -> (forall a, avoids f (g a)) -> avoids f (m ≫= g).
Proof.
  intros Hm Hg. unfold mbind, prog_bind.
  induction Hm as [a|o|c k Hc Hk IH]; simpl.
  - apply Hg.
  - constructor.
  - constructor; [exact Hc | exact IH].
Qed.

Lemma avoids_call f c : f c = false -> avoids f (call c).
Proof. intros Hc. constructor; [exact Hc | intros r; constructor]. Qed.

Lemma avoids_raise_or_ret {A} f (x : py_exception + A) : avoids f (raise_or_ret x).
Proof. destruct x; constructor. Qed.

Lemma avoids_run {S A} f (m : prog A) (h : handler S) s x t s' :
  avoids f m -> run m h s = (x, t, s') -> no_calls f t.
Proof.
  intros Hm. revert s x t s'.
  induction Hm as [a|o|c k Hc Hk IH]; intros s x t s'; simpl.
  - intros [= <- <- <-]. constructor.
  - intros [= <- <- <-]. constructor.
  - destruct (h c s) as [[a|e] s1].
    + destruct (run (k a) h s1) as [[y t1] s2] eqn:E. intros [= <- <- <-].
      constructor; [exact Hc | exact (IH a _ _ _ _ E)].
    + intros [= <- <- <-]. constructor; [exact Hc | constructor].
Qed.

Lemma no_calls_app f t1 t2 : no_calls f (t1 ++ t2) <-> no_calls f t1 /\ no_calls f t2.
Proof. apply Forall_app. Qed.

Lemma no_calls_count f t : no_calls f t <-> count_calls f t = 0.
Proof.
  unfold no_calls, count_calls. induction t as [|e t IH]; simpl.
  - split; [reflexivity | constructor].
  - split.
    + intros H. inversion H as [|? ? He Ht]; subst. rewrite He. apply IH, Ht.
    + destruct (f (ev_call e)) eqn:He; simpl; [discriminate|].
      intros H. constructor; [exact He | apply IH, H].
Qed.

Lemma count_calls_app f t1 t2 :
  count_calls f (t1 ++ t2) = count_calls f t1 + count_calls f t2.
Proof. unfold count_calls. rewrite List.filter_app, length_app. reflexivity. Qed.

(** ** The roles to add or remove (lines 311-328) *)

Lemma append_matches_eq role others acc :
  append_matches role others acc =
  acc ++ replicate (length (matching role others)) (entry role).
Proof.
  unfold append_matches, matching. revert acc.
  induction others as [|other others IH]; intros acc; simpl.
  - rewrite app_nil_r. reflexivity.
  - rewrite IH. unfold same_name at 2.
    destruct (decide (dict_get role "name" = dict_get other "name")) as [E|E].
    + rewrite (bool_decide_eq_true_2 _ E). simpl. rewrite <- app_assoc. reflexivity.
    + rewrite (bool_decide_eq_false_2 _ E). reflexivity.
Qed.

Lemma fold_update_roles st l available assigned acc :
  fold_left
    (fun update_roles role =>
       match st with
       | present => append_matches role available update_roles
       | absent => append_matches role assigned update_roles
       end) l acc =
  acc ++ flat_map
           (fun role =>
              replicate (length (matching role (compared_with st available assigned)))
                (entry role)) l.
Proof.
  revert acc. induction l as [|role l IH]; intros acc; simpl.
  - rewrite app_nil_r. reflexivity.
  - rewrite IH. destruct st; simpl; rewrite append_matches_eq, <- app_assoc; reflexivity.
Qed.

Lemma compute_update_roles_eq st l available assigned :
  compute_update_roles st l available assigned =
  flat_map
    (fun role =>
       replicate (length (matching role (compared_with st available assigned)))
         (entry role)) l.
Proof. unfold compute_update_roles. rewrite fold_update_roles. reflexivity. Qed.

Lemma compute_update_roles_app st l1 l2 available assigned :
  compute_update_roles st (l1 ++ l2) available assigned =
  compute_update_roles st l1 available assigned ++
  compute_update_roles st l2 available assigned.
Proof. rewrite !compute_update_roles_eq. apply flat_map_app. Qed.

Lemma entry_get_name role : dict_get (entry role) "name" = dict_get role "name".
Proof. unfold entry, dict_get at 1. rewrite lookup_insert_ne, lookup_insert_eq; done. Qed.

Lemma entry_get_id role : dict_get (entry role) "id" = dict_get role "id".
Proof. unfold entry, dict_get at 1. rewrite lookup_insert_eq. done. Qed.

Lemma matching_nonempty role others :
  matching role others <> [] <->
  exists other, other ∈ others /\ dict_get other "name" = dict_get role "name".
Proof.
  unfold matching. split.
  - intros H. destruct (List.filter (same_name role) others) as [|other l] eqn:E; [done|].
    assert (Hin : In other (List.filter (same_name role) others)) by (rewrite E; left; done).
    apply List.filter_In in Hin as [Hin Hn]. exists other. split.
    + apply list_elem_of_In, Hin.
    + unfold same_name in Hn. apply bool_decide_eq_true_1 in Hn. done.
  - intros (other & Hin & Hn) E.
    assert (Hf : In other (List.filter (same_name role) others)).
    { apply List.filter_In. split; [apply list_elem_of_In, Hin|].
      unfold same_name. apply bool_decide_eq_true_2. done. }
    rewrite E in Hf. destruct Hf.
Qed.

Lemma elem_of_compute_update_roles e st l available assigned :
  e ∈ compute_update_roles st l available assigned <->
  exists role, role ∈ l /\ e = entry role /\
    exists other, other ∈ compared_with st available assigned /\
                  dict_get other "name" = dict_get role "name".
Proof.
  rewrite compute_update_roles_eq, list_elem_of_In, List.in_flat_map. split.
  - intros (role & Hin & He). apply list_elem_of_In, elem_of_replicate in He as [-> Hn].
    exists role. split; [apply list_elem_of_In, Hin|]. split; [done|].
    apply matching_nonempty. intros E. rewrite E in Hn. done.
  - intros (role & Hin & -> & Hm). exists role. split; [apply list_elem_of_In, Hin|].
    apply list_elem_of_In, elem_of_replicate. split; [done|].
    apply matching_nonempty in Hm. destruct (matching role _); done.
Qed.

Lemma entry_elem_of_compute_update_roles role st l available assigned :
  role ∈ l ->
  entry role ∈ compute_update_roles st l available assigned <->
  exists other, other ∈ compared_with st available assigned /\
                dict_get other "name" = dict_get role "name".
Proof.
  intros Hin. rewrite elem_of_compute_update_roles. split.
  - intros (role' & _ & He & other & Ho & Hn). exists other. split; [done|].
    rewrite Hn, <- (entry_get_name role'), <- He, entry_get_name. done.
  - intros Hm. exists role. done.
Qed.

(** C1.  The roles to add or remove are a function of the desired roles, the
    state and the two sets alone: the desired roles are gone through in their
    order (the list computed for [l1 ++ l2] is the one for [l1] followed by the
    one for [l2]); with state present the entry of a desired role is in the
    list exactly when some available role has the very same name, with state
    absent exactly when some assigned role has; and a desired role whose name
    is in neither set contributes nothing. *)
Theorem diff_engine_spec (l available assigned : list pydict) :
  (forall st l1 l2,
      compute_update_roles st (l1 ++ l2) available assigned =
      compute_update_roles st l1 available assigned ++
      compute_update_roles st l2 available assigned) /\
  (forall role, role ∈ l ->
      entry role ∈ compute_update_roles present l available assigned <->
      exists other, other ∈ available /\ dict_get other "name" = dict_get role "name") /\
  (forall role, role ∈ l ->
      entry role ∈ compute_update_roles absent l available assigned <->
      exists other, other ∈ assigned /\ dict_get other "name" = dict_get role "name") /\
  (forall st e, e ∈ compute_update_roles st l available assigned ->
      exists role, role ∈ l /\ e = entry role) /\
  (forall st role,
      (forall other, other ∈ available ++ assigned ->
                     dict_get other "name" <> dict_get role "name") ->
      compute_update_roles st [role] available assigned = []).
Proof.
  split; [intros; apply compute_update_roles_app|].
  split; [intros role Hin; apply (entry_elem_of_compute_update_roles role present), Hin|].
  split; [intros role Hin; apply (entry_elem_of_compute_update_roles role absent), Hin|].
  split.
  - intros st e He. apply elem_of_compute_update_roles in He as (role & Hin & -> & _).
    exists role. done.
  - intros st role Hno. rewrite compute_update_roles_eq. simpl. rewrite app_nil_r.
    destruct (matching role (compared_with st available assigned)) as [|other m] eqn:E; [done|].
    exfalso. assert (Hm : matching role (compared_with st available assigned) <> [])
      by (rewrite E; done).
    apply matching_nonempty in Hm as (o & Ho & Hn). apply (Hno o); [|done].
    apply elem_of_app. destruct st; simpl in Ho; auto.
Qed.

(** Names are compared as they are: another case or a longer name is another
    name. *)
Example exact_name_only :
  compute_update_roles present [Server.by_name "admin"]
    [Server.role "1" "Admin"; Server.role "2" "administrator"; Server.role "3" "adm"] [] = [].
Proof. vm_compute. reflexivity. Qed.

Lemma matching_length_names role (xs ys : list pydict) :
  map (fun d => dict_get d "name") xs = map (fun d => dict_get d "name") ys ->
  length (matching role xs) = length (matching role ys).
Proof.
  revert ys. induction xs as [|x xs IH]; intros [|y ys] H; try discriminate; [done|].
  simpl in H. injection H as Hx Hxs. specialize (IH _ Hxs).
  assert (E : same_name role x = same_name role y) by (unfold same_name; rewrite Hx; done).
  unfold matching in *. cbn [List.filter]. rewrite E.
  destruct (same_name role y); cbn [length]; rewrite IH; reflexivity.
Qed.

(** C10.  Every entry of the list is built from the desired role, with its id
    and its name and nothing of the role it matched: sets with the same names
    in the same places give the same list, whatever their ids.  A desired role
    is entered once for each role of the comparison set that has its name. *)
Theorem update_roles_entries st (l available assigned : list pydict) :
  compute_update_roles st l available assigned =
    flat_map
      (fun role =>
         replicate (length (matching role (compared_with st available assigned)))
           (entry role)) l /\
  (forall role,
      entry role = <["id" := dict_get role "id"]> (<["name" := dict_get role "name"]> ∅)) /\
  (forall available' assigned',
      map (fun d => dict_get d "name") available' = map (fun d => dict_get d "name") available ->
      map (fun d => dict_get d "name") assigned' = map (fun d => dict_get d "name") assigned ->
      compute_update_roles st l available' assigned' =
      compute_update_roles st l available assigned).
Proof.
  split; [apply compute_update_roles_eq|]. split; [reflexivity|].
  intros available' assigned' Hav Has. rewrite !compute_update_roles_eq.
  induction l as [|role l IH]; simpl; [reflexivity|].
  rewrite IH. f_equal. f_equal.
  destruct st; simpl; apply matching_length_names; assumption.
Qed.

(** A comparison set that holds a name twice enters the desired role twice,
    with the id the task gave and not the ids of the set. *)
Example duplicate_entries :
  compute_update_roles present [Server.role "mine" "role_name1"]
    [Server.role "r1" "role_name1"; Server.role "r2" "role_name2";
     Server.role "r3" "role_name1"] [] =
  [Server.role "mine" "role_name1"; Server.role "mine" "role_name1"].
Proof. vm_compute. reflexivity. Qed.

(** ** How a program can end *)

Lemma halts_bind {A B} P (m : prog A) (g : A -> prog B) :
  halts_only P m -> (forall a, halts_only P (g a)) -> halts_only P (m ≫= g).
Proof.
  intros Hm Hg. unfold mbind, prog_bind.
  induction Hm as [a|o Ho|c k Hk IH]; simpl.
  - apply Hg.
  - constructor. exact Ho.
  - constructor. exact IH.
Qed.

Lemma halts_call P c : halts_only P (call c).
Proof. constructor. intros r. constructor. Qed.

Lemma halts_run {S A} P (m : prog A) (h : handler S) s o t s' :
  halts_only P m -> (forall e, P (upstream_failure e)) ->
  run m h s = (inr o, t, s') -> P o.
Proof.
  intros Hm Hup. revert s o t s'.
  induction Hm as [a|o1 Ho|c k Hk IH]; intros s o t s'; simpl.
  - discriminate.
  - intros [= <- <- <-]. exact Ho.
  - destruct (h c s) as [[a|e] s1].
    + destruct (run (k a) h s1) as [[y t1] s2] eqn:E. intros [= -> <- <-].
      exact (IH a _ _ _ _ E).
    + intros [= <- <- <-]. apply Hup.
Qed.

Ltac halt :=
  repeat first
    [ apply halts_Ret
    | apply halts_Halt; done
    | match goal with
      | |- halts_only ?P (call ?c) => apply (halts_call P c)
      end
    | apply halts_bind; [|intros ?]
    | match goal with
      | |- halts_only _ (raise_or_ret ?x) => destruct x; simpl
      | |- halts_only _ (if ?b then _ else _) => destruct b
      | |- halts_only _ (match ?x with _ => _ end) => destruct x
      end ].

(** ** The calls of each phase *)

Ltac avoid :=
  repeat first
    [ apply avoids_Ret
    | apply avoids_Halt
    | match goal with
      | |- avoids ?f (call ?c) => apply (avoids_call f c); reflexivity
      end
    | apply avoids_raise_or_ret
    | apply avoids_bind; [|intros ?]
    | match goal with
      | |- avoids _ (if ?b then _ else _) => destruct b
      | |- avoids _ (match ?x with _ => _ end) => destruct x
      end ].

Lemma resolve_role_avoids p g c role :
  avoids fetches_or_mutates (resolve_role p g c role).
Proof. unfold resolve_role. avoid. Qed.

Lemma resolve_roles_avoids p g c l :
  avoids fetches_or_mutates (resolve_roles p g c l).
Proof.
  unfold resolve_roles. induction l as [|role l IH]; cbn [for_each]; [constructor|].
  apply avoids_bind; [apply resolve_role_avoids|]. intros role'.
  apply avoids_bind; [exact IH|]. intros l'. constructor.
Qed.

Lemma resolve_avoids p : avoids fetches_or_mutates (resolve p).
Proof.
  unfold resolve, resolve_ids, resolve_all_roles, resolve_group, resolve_client.
  apply avoids_bind.
  - avoid.
  - intros [g c]. apply avoids_bind; [|intros l; constructor].
    destruct (roles p); [apply resolve_roles_avoids | constructor].
Qed.

Lemma avoids_weaken {A} (f f' : kc_call -> bool) (m : prog A) :
  (forall c, f' c = true -> f c = true) -> avoids f m -> avoids f' m.
Proof.
  intros Hf Hm. induction Hm as [a|o|c k Hc Hk IH]; constructor; auto.
  destruct (f' c) eqn:E; [|reflexivity]. rewrite (Hf c E) in Hc. discriminate.
Qed.

Lemma prelude_avoids p : avoids is_mutating (prelude p).
Proof.
  unfold prelude. apply avoids_bind.
  - apply (avoids_weaken fetches_or_mutates); [|apply resolve_avoids].
    intros c Hc. unfold fetches_or_mutates. rewrite Hc. apply orb_true_r.
  - intros [[g c] l]. unfold get_rolemappings. avoid.
Qed.

(** ** [main], phase by phase *)

Section Main.
Context {S : Type} (h : handler S).

Lemma run_main_prelude p s :
  run_main p h s =
  match run (prelude p) h s with
  | (inl r, t, s1) =>
      match run (finish p r) h s1 with
      | (inr o, t', s2) => (o, t ++ t', s2)
      | (inl e, _, _) => match e with end
      end
  | (inr o, t, s1) => (o, t, s1)
  end.
Proof.
  unfold run_main, main. rewrite run_bind.
  destruct (run (prelude p) h s) as [[[r|o] t] s1]; [|reflexivity].
  destruct (run (finish p r) h s1) as [[[e|o] t'] s2]; [destruct e | reflexivity].
Qed.

Lemma finish_nothing p r s :
  update_roles p r = [] ->
  run (finish p r) h s =
  (inr (exit_json (set_msg (msg_nothing p r) (set_changed false (result_before r)))), [], s).
Proof. intros E. unfold finish. rewrite E. reflexivity. Qed.

Lemma finish_check_mode p r s :
  update_roles p r <> [] -> check_mode p = true ->
  run (finish p r) h s = (inr (exit_json (result_changed p r)), [], s).
Proof.
  intros E C. unfold finish, result_changed, result_before.
  destruct (update_roles p r) as [|x l] eqn:U; [done|]. simpl.
  destruct (state p); rewrite C; reflexivity.
Qed.

End Main.

(** ** Resolving the roles (lines 275-298) *)

Lemma halts_resolve_role p g c role :
  halts_only is_failure (resolve_role p g c role).
Proof. unfold resolve_role. halt. Qed.

Lemma halts_resolve_roles p g c l :
  halts_only is_failure (resolve_roles p g c l).
Proof.
  unfold resolve_roles. induction l as [|role l IH]; cbn [for_each]; [constructor|].
  apply halts_bind; [apply halts_resolve_role|]. intros role'.
  apply halts_bind; [exact IH|]. intros l'. constructor.
Qed.

Lemma halts_resolve_ids p : halts_only is_failure (resolve_ids p).
Proof. unfold resolve_ids, resolve_group, resolve_client. halt. Qed.

Lemma halts_prelude p : halts_only no_result (prelude p).
Proof.
  assert (W : forall A (m : prog A), halts_only is_failure m -> halts_only no_result m).
  { intros A m Hm. induction Hm as [a|o Ho|c k Hk IH]; constructor; auto.
    destruct o; done. }
  unfold prelude, resolve, resolve_all_roles.
  apply halts_bind.
  - apply halts_bind; [apply W, halts_resolve_ids|]. intros [g c].
    apply halts_bind; [|intros l; constructor].
    destruct (roles p); [apply W, halts_resolve_roles | constructor; done].
  - intros [[g c] l]. unfold get_rolemappings. halt.
Qed.

Ltac run_inv :=
  repeat match goal with
    | H : run (_ ≫= _) _ _ = (inl _, _, _) |- _ =>
        apply run_bind_inl in H as (? & ? & ? & ? & ? & H & ->)
    | H : run (call ?c) ?h _ = (inl _, _, _) |- _ =>
        apply (run_call_inl h c) in H as [? ->]
    | H : run (raise_or_ret _) _ _ = (inl _, _, _) |- _ =>
        apply run_raise_or_ret_inl in H as (? & -> & ->)
    | H : run (Ret _) _ _ = _ |- _ => simpl in H; injection H as <- <- <-
    | H : run (Halt _) _ _ = (inl _, _, _) |- _ => discriminate H
    | H : run (match ?b with _ => _ end) _ _ = _ |- _ => destruct b eqn:?
    end.

Lemma is_None_true {A} (x : option A) : is_None x = true <-> x = None.
Proof. destruct x; simpl; split; congruence. Qed.

Lemma is_None_false {A} (x : option A) : is_None x = false <-> x <> None.
Proof. destruct x; simpl; split; congruence. Qed.

Section Resolve.
Context {S : Type} (h : handler S).

Lemma resolve_role_unnamed p g c role s :
  unnamed role ->
  run (resolve_role p g c role) h s = (inr (fail_json invalid_role), [], s).
Proof. intros [Hn Hi]. unfold resolve_role. rewrite Hn, Hi. reflexivity. Qed.

Lemma resolve_role_inl p g c role s role' t s' :
  run (resolve_role p g c role) h s = (inl role', t, s') ->
  ~ unnamed role /\ resolved_from role role' /\
  exists e, t = [e] /\ is_role_lookup (ev_call e) = true.
Proof.
  unfold resolve_role. intros H.
  destruct (is_None (dict_get role "name") && is_None (dict_get role "id")) eqn:U;
    [discriminate|].
  split.
  { intros [Hn Hi]. rewrite Hn, Hi in U. discriminate. }
  destruct (is_None (dict_get role "id")) eqn:I.
  - apply is_None_true in I. run_inv.
    + destruct x as [i|]; [|discriminate]. run_inv. split.
      * left. split; [done|]. exists i. reflexivity.
      * simpl. eexists. split; [reflexivity|]. reflexivity.
    + destruct x as [i|]; [|discriminate]. run_inv. split.
      * left. split; [done|]. exists i. reflexivity.
      * simpl. eexists. split; [reflexivity|]. reflexivity.
  - apply is_None_false in I. run_inv.
    + unfold dict_get in Heqb at 1. rewrite lookup_insert_eq in Heqb.
      destruct x as [n|]; [|discriminate]. split.
      * right. split; [done|]. exists n. reflexivity.
      * simpl. eexists. split; [reflexivity|]. reflexivity.
    + unfold dict_get in Heqb at 1. rewrite lookup_insert_eq in Heqb.
      destruct x as [n|]; [|discriminate]. split.
      * right. split; [done|]. exists n. reflexivity.
      * simpl. eexists. split; [reflexivity|]. reflexivity.
Qed.

(** A lookup by name that finds nothing, for any server: in the realm the
    module subscripts [None]; for a client it reaches its own failure. *)
Lemma realm_role_not_found p g role s s1 :
  dict_get role "id" = None -> dict_get role "name" <> None ->
  h (get_realm_role (dict_get role "name") (realm p)) s = (returned None, s1) ->
  run (resolve_role p g None role) h s =
  (inr (uncaught TypeError),
   [Ev (get_realm_role (dict_get role "name") (realm p)) (returned None)], s1).
Proof.
  intros Hi Hn H. unfold resolve_role. rewrite Hi.
  destruct (dict_get role "name") as [n|]; [|done]. simpl. rewrite H. reflexivity.
Qed.

Lemma client_role_not_found p g ci role s s1 :
  dict_get role "id" = None -> dict_get role "name" <> None ->
  h (get_client_role_id_by_name (Some ci) (dict_get role "name") (realm p)) s =
    (returned None, s1) ->
  run (resolve_role p g (Some ci) role) h s =
  (inr (fail_json (could_not_fetch_role (dict_get role "name") p)),
   [Ev (get_client_role_id_by_name (Some ci) (dict_get role "name") (realm p))
       (returned None)], s1).
Proof.
  intros Hi Hn H. unfold resolve_role. rewrite Hi.
  destruct (dict_get role "name") as [n|]; [|done]. simpl. rewrite H. reflexivity.
Qed.

End Resolve.

Section Roles.
Context {S : Type} (h : handler S).

Lemma resolve_roles_inl p g c l s l' t s' :
  run (resolve_roles p g c l) h s = (inl l', t, s') ->
  Forall2 resolved_from l l' /\
  Forall (fun role => ~ unnamed role) l /\
  length t = length l /\
  Forall (fun e => is_role_lookup (ev_call e) = true) t.
Proof.
  unfold resolve_roles.
  revert s l' t s'. induction l as [|role l IH]; intros s l' t s' H.
  - simpl in H. injection H as <- <- <-. repeat split; constructor.
  - cbn [for_each] in H.
    apply run_bind_inl in H as (role' & t1 & s1 & t2 & H1 & H2 & ->).
    apply run_bind_inl in H2 as (rest' & t3 & s3 & t4 & H3 & H4 & ->).
    simpl in H4. injection H4 as <- <- <-.
    apply resolve_role_inl in H1 as (Hu & Hr & e & -> & He).
    apply IH in H3 as (Hf2 & Hun & Hlen & Hlk).
    rewrite app_nil_r. simpl. repeat split.
    + constructor; assumption.
    + constructor; assumption.
    + rewrite Hlen. reflexivity.
    + constructor; assumption.
Qed.

Lemma resolve_roles_unnamed p g c pre bad post s pre' t s1 :
  unnamed bad ->
  run (resolve_roles p g c pre) h s = (inl pre', t, s1) ->
  run (resolve_roles p g c (pre ++ bad :: post)) h s =
  (inr (fail_json invalid_role), t, s1).
Proof.
  intros Hbad. unfold resolve_roles.
  revert s pre' t. induction pre as [|role pre IH]; intros s pre' t H.
  - simpl in H. injection H as <- <- <-.
    cbn [app for_each]. rewrite run_bind, resolve_role_unnamed by exact Hbad.
    reflexivity.
  - cbn [for_each] in H.
    apply run_bind_inl in H as (role' & t1 & s2 & t2 & H1 & H2 & ->).
    apply run_bind_inl in H2 as (rest' & t3 & s3 & t4 & H3 & H4 & ->).
    simpl in H4. injection H4 as <- <- <-.
    change ((role :: pre) ++ bad :: post) with (role :: (pre ++ bad :: post)).
    cbn [for_each]. rewrite run_bind, H1, run_bind, (IH _ _ _ H3).
    rewrite app_nil_r. reflexivity.
Qed.

Lemma resolve_roles_fails p g c l bad s x t s' :
  bad ∈ l -> unnamed bad ->
  run (resolve_roles p g c l) h s = (x, t, s') ->
  exists o, x = inr o /\ is_failure o.
Proof.
  intros Hin Hbad H. destruct x as [l'|o].
  - apply resolve_roles_inl in H as (_ & Hun & _).
    rewrite Forall_forall in Hun. destruct (Hun bad Hin Hbad).
  - exists o. split; [reflexivity|].
    apply (halts_run is_failure _ h s o t s' (halts_resolve_roles p g c l)); [|exact H].
    intros e. exact I.
Qed.

Lemma resolve_ids_inl p s g c t s' :
  run (resolve_ids p) h s = (inl (g, c), t, s') ->
  count_calls is_kc t = id_lookups p.
Proof.
  unfold resolve_ids, resolve_group, resolve_client, id_lookups. intros H.
  destruct (gid p), (target_groupname p), (cid p), (client_id p);
    cbn [is_None andb negb] in H; run_inv; reflexivity.
Qed.

End Roles.

(** ** Applying the change (lines 330-365) *)

Section Reconcile.
Context {S : Type} (h : handler S).

Lemma finish_live p r s x t s' :
  update_roles p r <> [] -> check_mode p = false ->
  run (finish p r) h s = (x, t, s') ->
  exists o e, x = inr o /\ ev_call e = mutation p r /\
    ((t = [e] /\ succeeded e = false /\ exists m, o = upstream_failure m) \/
     exists e2, t = [e; e2] /\ succeeded e = true /\ ev_call e2 = refetch p r /\
       ((fetched_roles e2 = None /\ exists m, o = upstream_failure m) \/
        exists l, fetched_roles e2 = Some l /\
          o = exit_json (set_end_state (PyList l)
                           (set_msg (msg_changed p r) (result_changed p r))))).
Proof.
  intros U C. unfold finish, mutation, refetch, msg_changed, result_changed,
    result_before, get_assigned_roles_after.
  destruct (update_roles p r) as [|u us] eqn:E; [done|]. clear U.
  rewrite C. cbn [length Nat.eqb negb].
  destruct (state p), (r_cid r) as [ci|]; cbn [is_None]; simpl;
    repeat (match goal with
            | |- context [h ?c ?st] => destruct (h c st) as [[?|?] ?]
            end; simpl);
    intros [= <- <- <-]; eexists _, (Ev _ _); (split; [reflexivity|]);
    (split; [reflexivity|]);
    first [ left; split; [reflexivity|]; split; [reflexivity|]; eexists; reflexivity
          | right;
            lazymatch goal with |- ex (fun _ => [_; ?x] = _ /\ _) => exists x end;
            split; [reflexivity|]; split; [reflexivity|];
            split; [reflexivity|];
            first [ left; split; [reflexivity | eexists; reflexivity]
                  | right; eexists; split; [reflexivity|];
                    destruct (_diff p); reflexivity ] ].
Qed.

Lemma finish_no_mutation_twice p r s x t s' :
  run (finish p r) h s = (x, t, s') -> count_calls is_mutating t <= 1.
Proof.
  intros H. destruct (decide (update_roles p r = [])) as [E|E].
  - rewrite (finish_nothing h p r s E) in H. injection H as <- <- <-.
    unfold count_calls. simpl. lia.
  - destruct (check_mode p) eqn:C.
    + rewrite (finish_check_mode h p r s E C) in H. injection H as <- <- <-.
      unfold count_calls. simpl. lia.
    + apply finish_live in H as (o & e & -> & He & H); [|done..].
      assert (Hr : is_mutating (refetch p r) = false)
        by (unfold refetch; destruct (r_cid r); reflexivity).
      destruct H as [(-> & _)|(e2 & -> & _ & He2 & _)]; unfold count_calls; simpl.
      * destruct (is_mutating (ev_call e)); simpl; lia.
      * rewrite He2, Hr. destruct (is_mutating (ev_call e)); simpl; lia.
Qed.

(** C5.  When no desired role matches, the module calls nothing that changes
    the mappings, reports [changed=False] and says that there is nothing to
    do. *)
Theorem nothing_to_do p s r t s1 :
  run (prelude p) h s = (inl r, t, s1) ->
  update_roles p r = [] ->
  run_main p h s =
    (exit_json
       {| changed := false;
          msg := Fmt "Nothing to do, roles %s are correctly mapped to group %s."
                     [ArgRoles (r_roles r); ArgStr (target_groupname p)];
          diff := None;
          proposed := PyList (r_roles r);
          existing := PyList (assigned_roles_before r);
          end_state := PyEmptyDict |},
     t, s1) /\
  no_calls is_mutating t.
Proof.
  intros H E. split.
  - rewrite run_main_prelude, H, (finish_nothing h p r s1 E), app_nil_r. reflexivity.
  - exact (avoids_run _ _ _ _ _ _ _ (prelude_avoids p) H).
Qed.

(** C4.  In check mode no call that changes the mappings is made, whatever
    the list of roles to add or remove; and whenever resolution and fetch
    go through, the module exits with [changed] true exactly when that list
    is not empty, which is the value a run without check mode reports. *)
Theorem check_mode_changes_nothing p s :
  check_mode p = true ->
  no_calls is_mutating (run_main p h s).1.2 /\
  forall r t0 s0,
    run (prelude p) h s = (inl r, t0, s0) ->
    exists res,
      run_main p h s = (exit_json res, t0, s0) /\
      (changed res = true <-> update_roles p r <> []) /\
      forall res' t' s',
        run_main (with_check_mode false p) h s = (exit_json res', t', s') ->
        changed res' = changed res.
Proof.
  intros C. rewrite run_main_prelude.
  destruct (run (prelude p) h s) as [[[r|o] t] s1] eqn:E.
  - assert (Ht : no_calls is_mutating t)
      by exact (avoids_run _ _ _ _ _ _ _ (prelude_avoids p) E).
    assert (Hlive : forall res' t' s',
               run_main (with_check_mode false p) h s = (exit_json res', t', s') ->
               changed res' = negb (Nat.eqb (length (update_roles p r)) 0)).
    { intros res' t' s'. rewrite run_main_prelude.
      change (prelude (with_check_mode false p)) with (prelude p). rewrite E.
      destruct (run (finish (with_check_mode false p) r) h s1) as [[[[]|o] t2] s2] eqn:F.
      intros [= -> <- <-].
      change (update_roles p r) with (update_roles (with_check_mode false p) r).
      destruct (decide (update_roles (with_check_mode false p) r = [])) as [U|U].
      - rewrite (finish_nothing h _ r s1 U) in F. injection F as <- <- <-.
        rewrite U. reflexivity.
      - apply finish_live in F as (o & e & [= <-] & _ & F); [|done..].
        destruct F as [(_ & _ & m & [=])|(e2 & _ & _ & _ & [(_ & m & [=])|(l & _ & [= ->])])].
        destruct (update_roles (with_check_mode false p) r); [done|].
        unfold result_changed. destruct (_diff _); reflexivity. }
    destruct (decide (update_roles p r = [])) as [U|U].
    + rewrite (finish_nothing h p r s1 U), app_nil_r. split; [exact Ht|].
      intros r' t0 s0 [= <- <- <-]. eexists. split; [reflexivity|]. split.
      * simpl. split; [discriminate | done].
      * intros res' t' s' H. rewrite (Hlive _ _ _ H), U. reflexivity.
    + rewrite (finish_check_mode h p r s1 U C), app_nil_r. split; [exact Ht|].
      intros r' t0 s0 [= <- <- <-]. eexists. split; [reflexivity|].
      assert (Hc : changed (result_changed p r) = true)
        by (unfold result_changed; destruct (_diff p); reflexivity).
      split.
      * rewrite Hc. done.
      * intros res' t' s' H. rewrite (Hlive _ _ _ H), Hc.
        destruct (update_roles p r); done.
  - split.
    + exact (avoids_run _ _ _ _ _ _ _ (prelude_avoids p) E).
    + intros r t0 s0 [=].
Qed.

Lemma run_main_failed p s o t s' :
  run (prelude p) h s = (inr o, t, s') -> run_main p h s = (o, t, s').
Proof. intros H. rewrite run_main_prelude, H. reflexivity. Qed.

Lemma run_main_resolved p s r t s1 :
  run (prelude p) h s = (inl r, t, s1) ->
  exists o t' s', run (finish p r) h s1 = (inr o, t', s') /\
                  run_main p h s = (o, t ++ t', s').
Proof.
  intros H. rewrite run_main_prelude, H.
  destruct (run (finish p r) h s1) as [[[[]|o] t'] s']. eauto.
Qed.

(** C7.  A run makes at most one call that changes the mappings.  A run that
    fails before line 308 (token, group, client, a role, the fetch of the two
    sets), or that ends in [fail_json] or in a traceback, has made none.
    When the list of roles to add or remove is not empty and check mode is
    off, the calls after the fetch are: the one call to add (state present)
    or to delete (state absent) with the whole list, and, if it returns, one
    fetch of the assigned roles, whose answer is reported as [end_state]. *)
Theorem one_batched_change p s o t s' :
  run_main p h s = (o, t, s') ->
  count_calls is_mutating t <= 1 /\
  (forall o0 t0 s0,
      run (prelude p) h s = (inr o0, t0, s0) ->
      o = o0 /\ t = t0 /\ no_calls is_mutating t) /\
  ((exists m, o = fail_json m) \/ (exists e, o = uncaught e) ->
   no_calls is_mutating t) /\
  (forall r t0 s0,
      run (prelude p) h s = (inl r, t0, s0) ->
      update_roles p r <> [] -> check_mode p = false ->
      no_calls is_mutating t0 /\
      exists e, ev_call e = mutation p r /\
        ((t = t0 ++ [e] /\ succeeded e = false /\ exists m, o = upstream_failure m) \/
         exists e2, t = t0 ++ [e; e2] /\ succeeded e = true /\
           ev_call e2 = refetch p r /\
           ((fetched_roles e2 = None /\ exists m, o = upstream_failure m) \/
            exists l res, fetched_roles e2 = Some l /\ o = exit_json res /\
              changed res = true /\ end_state res = PyList l /\
              msg res = msg_changed p r /\
              existing res = PyList (assigned_roles_before r)))).
Proof.
  intros H.
  destruct (run (prelude p) h s) as [[[r|o0] t0] s0] eqn:E.
  - pose proof (avoids_run _ _ _ _ _ _ _ (prelude_avoids p) E) as Ht0.
    destruct (run_main_resolved p s r t0 s0 E) as (o1 & t1 & s1 & F & M).
    rewrite M in H. injection H as -> <- <-.
    split; [|split; [|split]].
    + rewrite count_calls_app. apply no_calls_count in Ht0. rewrite Ht0.
      apply (finish_no_mutation_twice p r s0 _ _ _ F).
    + intros o0 t2 s2 [=].
    + intros Hfail. destruct (decide (update_roles p r = [])) as [U|U].
      * rewrite (finish_nothing h p r s0 U) in F. injection F as <- <- <-.
        destruct Hfail as [[m [=]]|[e [=]]].
      * destruct (check_mode p) eqn:C.
        -- rewrite (finish_check_mode h p r s0 U C) in F. injection F as <- <- <-.
           destruct Hfail as [[m [=]]|[e [=]]].
        -- apply finish_live in F as (o2 & e & [= <-] & _ & F); [|done..].
           destruct F as [(_ & _ & m & ->)|(e2 & _ & _ & _ & [(_ & m & ->)|(l & _ & ->)])];
             destruct Hfail as [[m' [=]]|[e' [=]]].
    + intros r' t2 s2 [= <- <- <-] U C. split; [exact Ht0|].
      apply finish_live in F as (o2 & e & [= <-] & He & F); [|done..].
      exists e. split; [exact He|].
      destruct F as [(-> & Hs & Hm)|(e2 & -> & Hs & He2 & F)]; [left; done|].
      right. exists e2. split; [reflexivity|]. split; [exact Hs|]. split; [exact He2|].
      destruct F as [F|(l & Hl & ->)]; [left; exact F|].
      right. exists l. eexists. split; [exact Hl|]. split; [reflexivity|].
      unfold result_changed. destruct (_diff p); done.
  - rewrite (run_main_failed p s o0 t0 s0 E) in H. injection H as <- <- <-.
    pose proof (avoids_run _ _ _ _ _ _ _ (prelude_avoids p) E) as Ht0.
    split; [|split; [|split]].
    + apply no_calls_count in Ht0. rewrite Ht0. lia.
    + intros o1 t1 s1 [= <- <- <-]. done.
    + intros _. exact Ht0.
    + intros r t1 s1 [=].
Qed.

Lemma finish_proposed p r s res t s' :
  run (finish p r) h s = (inr (exit_json res), t, s') ->
  proposed res = PyList (r_roles r) /\
  existing res = PyList (assigned_roles_before r) /\
  (changed res = false -> end_state res = PyEmptyDict).
Proof.
  intros F. destruct (decide (update_roles p r = [])) as [U|U].
  - rewrite (finish_nothing h p r s U) in F. injection F as <- <- <-. done.
  - destruct (check_mode p) eqn:C.
    + rewrite (finish_check_mode h p r s U C) in F. injection F as <- <- <-.
      unfold result_changed. destruct (_diff p); done.
    + apply finish_live in F as (o2 & e & [= <-] & _ & F); [|done..].
      destruct F as [(_ & _ & m & [=])|(e2 & _ & _ & _ & [(_ & m & [=])|(l & _ & [= ->])])].
      unfold result_changed. destruct (_diff p); done.
Qed.

End Reconcile.

(** ** What the loop writes into the roles *)

Section Lookups.
Context {S : Type} (h : handler S).

Lemma subscript_inr x k v :
  subscript x k = inr v -> exists d, x = Some d /\ d !! k = Some v.
Proof.
  unfold subscript. destruct x as [d|]; [|discriminate].
  destruct (d !! k) as [w|] eqn:E; [|discriminate]. intros [= ->]. eauto.
Qed.

Lemma resolve_role_looked_up p g c role s role' t s' :
  run (resolve_role p g c role) h s = (inl role', t, s') ->
  exists e, t = [e] /\ looked_up p g c role e role'.
Proof.
  unfold resolve_role, looked_up. intros H.
  destruct (is_None (dict_get role "name") && is_None (dict_get role "id")) eqn:U;
    [discriminate|].
  destruct (dict_get role "id") as [i0|] eqn:I; cbn [is_None] in H.
  - apply run_bind_inl in H as (name & t1 & s1 & t2 & H1 & H2 & ->).
    assert (Hget : dict_get (<["name" := name]> role) "name" = name)
      by (unfold dict_get; rewrite lookup_insert_eq; reflexivity).
    cbv zeta in H2. rewrite Hget in H2.
    destruct name as [n|]; cbn [is_None] in H2; [|discriminate].
    simpl in H2. injection H2 as <- <- <-. rewrite app_nil_r.
    destruct c as [ci|]; cbn [is_None] in H1; run_inv;
      match goal with
      | Hs : subscript _ _ = inr _ |- _ => apply subscript_inr in Hs as (d & -> & Hd)
      end; simpl; eexists; (split; [reflexivity|]); exists d, n; done.
  - apply run_bind_inl in H as (role_id & t1 & s1 & t2 & H1 & H2 & ->).
    destruct role_id as [i|]; cbn [is_None negb] in H2; [|discriminate].
    simpl in H2. injection H2 as <- <- <-. rewrite app_nil_r.
    destruct c as [ci|]; cbn [is_None] in H1; run_inv.
    + simpl. eexists. split; [reflexivity|]. exists i. done.
    + match goal with
      | Hs : subscript _ _ = inr _ |- _ => apply subscript_inr in Hs as (d & -> & Hd)
      end. simpl. eexists. split; [reflexivity|]. exists d, i. done.
Qed.

Lemma resolve_roles_looked_up p g c l s l' t s' :
  run (resolve_roles p g c l) h s = (inl l', t, s') ->
  Forall3 (looked_up p g c) l t l'.
Proof.
  unfold resolve_roles.
  revert s l' t s'. induction l as [|role l IH]; intros s l' t s' H.
  - simpl in H. injection H as <- <- <-. constructor.
  - cbn [for_each] in H.
    apply run_bind_inl in H as (role' & t1 & s1 & t2 & H1 & H2 & ->).
    apply run_bind_inl in H2 as (rest' & t3 & s3 & t4 & H3 & H4 & ->).
    simpl in H4. injection H4 as <- <- <-.
    apply resolve_role_looked_up in H1 as (e & -> & He).
    rewrite app_nil_r. simpl. constructor; [exact He|]. exact (IH _ _ _ _ H3).
Qed.

End Lookups.

(** ** Roles without a name and without an id *)

Section Validation.
Context {S : Type} (h : handler S).

Lemma run_main_unresolved p s o t s' :
  run (resolve p) h s = (inr o, t, s') -> run_main p h s = (o, t, s').
Proof.
  intros H. apply run_main_failed. unfold prelude. rewrite run_bind, H. reflexivity.
Qed.

Lemma role_lookups_count t :
  Forall (fun e => is_role_lookup (ev_call e) = true) t ->
  count_calls is_kc t = length t.
Proof.
  unfold count_calls. induction 1 as [|e t He Ht IH]; [reflexivity|]. simpl.
  assert (Hk : is_kc (ev_call e) = true) by (destruct (ev_call e); done).
  rewrite Hk. simpl. rewrite IH. reflexivity.
Qed.

(** C2, as the module does it.  A task with a role that has neither a name
    nor an id never exits successfully, never fetches the role mappings and
    never changes them.  The module fails with the message about the missing
    name and id once the loop reaches that role: when the token, the group
    and the client were obtained and every role before it was resolved.  By
    then the client has been asked for the group (no [gid]), for the client
    (a [client_id] and no [cid]), and once for each role before the
    offending one. *)
Theorem unnamed_role_fails p s pre bad post :
  roles p = Some (pre ++ bad :: post) ->
  unnamed bad ->
  (is_failure (run_main p h s).1.1 /\
   no_calls is_fetch (run_main p h s).1.2 /\
   no_calls is_mutating (run_main p h s).1.2) /\
  forall g c t0 s0 pre' t1 s1,
    run (resolve_ids p) h s = (inl (g, c), t0, s0) ->
    run (resolve_roles p g c pre) h s0 = (inl pre', t1, s1) ->
    run_main p h s = (fail_json invalid_role, t0 ++ t1, s1) /\
    count_calls is_kc (t0 ++ t1) = id_lookups p + length pre.
Proof.
  intros Hroles Hbad.
  assert (Hres : exists o t s', run (resolve p) h s = (inr o, t, s') /\ is_failure o).
  { unfold resolve. rewrite run_bind.
    destruct (run (resolve_ids p) h s) as [[[[g c]|o] t0] s0] eqn:E.
    - rewrite run_bind. unfold resolve_all_roles. rewrite Hroles.
      destruct (run (resolve_roles p g c (pre ++ bad :: post)) h s0)
        as [[x t1] s1] eqn:R.
      destruct (resolve_roles_fails h p g c (pre ++ bad :: post) bad s0 x t1 s1)
        as (o & -> & Ho);
        [apply elem_of_app; right; left | exact Hbad | exact R |].
      eauto.
    - exists o, t0, s0. split; [reflexivity|].
      apply (halts_run is_failure _ h s o t0 s0 (halts_resolve_ids p)); [|exact E].
      intros e. exact I. }
  destruct Hres as (o & t & s' & R & Ho).
  pose proof (avoids_run _ _ _ _ _ _ _ (resolve_avoids p) R) as Ht.
  rewrite (run_main_unresolved p s o t s' R). cbn [fst snd]. split.
  - split; [exact Ho|].
    split; eapply Forall_impl; try exact Ht; intros e He; unfold fetches_or_mutates in He;
      apply orb_false_elim in He as [? ?]; assumption.
  - intros g c t0 s0 pre' t1 s1 E P.
    assert (R' : run (resolve p) h s = (inr (fail_json invalid_role), t0 ++ t1, s1)).
    { unfold resolve. rewrite run_bind, E, run_bind. unfold resolve_all_roles.
      rewrite Hroles, (resolve_roles_unnamed h p g c pre bad post s0 pre' t1 s1 Hbad P).
      reflexivity. }
    rewrite R' in R. injection R as <- <- <-. split; [reflexivity|].
    rewrite count_calls_app, (resolve_ids_inl h p s g c t0 s0 E).
    apply resolve_roles_inl in P as (_ & _ & Hlen & Hlk).
    rewrite (role_lookups_count t1 Hlk), Hlen. reflexivity.
Qed.

(** C9, as the module does it.  [proposed] is the list of desired roles as
    the loop of lines 278-298 left it: the same roles in the same order, each
    changed by its own lookup.  The lookups are the calls of the run that
    follow the resolution of the group and the client, one for each role in
    the order of the list.  A role given without an id carries the id its
    lookup returned: the ['id'] of the realm role found for its name, or the
    id found for its name among the roles of the client.  A role given with
    an id carries, in place of its own name, the ['name'] of the mapping of
    the group that its lookup found under that id. *)
Theorem proposed_is_resolved p s res t s' :
  run_main p h s = (exit_json res, t, s') ->
  exists l l',
    roles p = Some l /\ proposed res = PyList l' /\ Forall2 resolved_from l l' /\
    exists g c t0 s0 t1 t2,
      run (resolve_ids p) h s = (inl (g, c), t0, s0) /\
      t = t0 ++ t1 ++ t2 /\
      Forall3 (looked_up p g c) l t1 l'.
Proof.
  intros H.
  destruct (run (prelude p) h s) as [[[r|o] t0] s0] eqn:E.
  - destruct (run_main_resolved h p s r t0 s0 E) as (o1 & t1 & s1 & F & M).
    rewrite M in H. injection H as -> <- <-.
    apply finish_proposed in F as (Hp & _).
    unfold prelude in E.
    apply run_bind_inl in E as ([[g c] l'] & t2 & s2 & t3 & R & G & ->).
    apply run_bind_inl in G as ([av asg] & t4 & s4 & t5 & _ & G & ->).
    simpl in G. injection G as <- _ _.
    unfold resolve in R.
    apply run_bind_inl in R as ([g' c'] & t6 & s6 & t7 & Ids & R & ->).
    apply run_bind_inl in R as (l'' & t8 & s8 & t9 & R & G & ->).
    simpl in G. injection G as -> -> -> <- _.
    unfold resolve_all_roles in R. destruct (roles p) as [l|]; [|discriminate].
    pose proof (resolve_roles_looked_up h p g c l s6 l' t8 s8 R) as Hlk.
    apply resolve_roles_inl in R as (Hf & _).
    exists l, l'. split; [reflexivity|]. split; [exact Hp|]. split; [exact Hf|].
    exists g, c, t6, s6, t8, ((t4 ++ t5) ++ t1).
    split; [exact Ids|]. split; [|exact Hlk].
    rewrite app_nil_r, <- !app_assoc. reflexivity.
  - rewrite (run_main_failed h p s o t0 s0 E) in H. injection H as -> _ _.
    assert (Hn : no_result (exit_json res)).
    { apply (halts_run no_result _ h s _ t0 s0 (halts_prelude p)); [|exact E].
      intros e. exact I. }
    destruct Hn.
Qed.

(** Whenever the module reports [changed=False] together with the result
    dict, [end_state] is still the empty dict it was initialised to. *)
Lemma unchanged_end_state p s res t s' :
  run_main p h s = (exit_json res, t, s') ->
  changed res = false ->
  end_state res = PyEmptyDict.
Proof.
  intros H C.
  destruct (run (prelude p) h s) as [[[r|o] t0] s0] eqn:E.
  - destruct (run_main_resolved h p s r t0 s0 E) as (o1 & t1 & s1 & F & M).
    rewrite M in H. injection H as -> <- <-.
    apply finish_proposed in F as (_ & _ & F). exact (F C).
  - rewrite (run_main_failed h p s o t0 s0 E) in H. injection H as -> _ _.
    assert (Hn : no_result (exit_json res)).
    { apply (halts_run no_result _ h s _ t0 s0 (halts_prelude p)); [|exact E].
      intros e. exact I. }
    destruct Hn.
Qed.

End Validation.

(** ** The module on the sample server *)

Section Scenarios.
Import Server.

(** C3.  With role_name1 already mapped and therefore no longer available,
    asking for it changes nothing; the module then reports the assigned
    roles under [existing] but leaves [end_state] empty. *)
Lemma unchanged_run_reports_no_end_state :
  exists t,
    run_main (task present [by_name "role_name1"]) handle s1 =
    (exit_json
       {| changed := false;
          msg := Fmt "Nothing to do, roles %s are correctly mapped to group %s."
                     [ArgRoles [role "r1" "role_name1"]; ArgStr None];
          diff := None;
          proposed := PyList [role "r1" "role_name1"];
          existing := PyList [role "r1" "role_name1"];
          end_state := PyEmptyDict |},
     t, s1).
Proof. eexists. vm_compute. reflexivity. Qed.

(** C8.  The same task run twice: the first run maps the role and reports it
    as [end_state], the second run changes nothing and reports an empty
    [end_state]. *)
Lemma second_run_reports_no_end_state :
  exists res1 t1 res2 t2,
    run_main (task present [by_name "role_name1"]) handle s0 = (exit_json res1, t1, s1) /\
    run_main (task present [by_name "role_name1"]) handle s1 = (exit_json res2, t2, s1) /\
    changed res1 = true /\ end_state res1 = PyList [role "r1" "role_name1"] /\
    changed res2 = false /\ end_state res2 = PyEmptyDict.
Proof.
  eexists _, _, _, _. split; [vm_compute; reflexivity|].
  split; [vm_compute; reflexivity|]. repeat split.
Qed.

(** C6.  A lookup that finds nothing.  By name in the realm, and by id in the
    realm or for a client, the module subscripts the [None] it got and ends
    in a traceback; only by name for a client does it fail with the message
    that names the role, the client and the realm. *)
Lemma role_lookup_finding_nothing :
  (run_main (task present [by_name "role_name3"]) handle s0).1 =
    (uncaught TypeError,
     [Ev get_token (returned ());
      Ev (get_realm_role (Some "role_name3") "master") (returned None)]) /\
  (run_main (task absent [by_id "r3"]) handle s0).1 =
    (uncaught TypeError,
     [Ev get_token (returned ());
      Ev (get_realm_group_rolemapping_by_id (Some "g1") (Some "r3") "master")
         (returned None)]) /\
  (run_main (client_task absent [by_id "r3"]) handle s0).1 =
    (uncaught TypeError,
     [Ev get_token (returned ());
      Ev (get_client_id (Some "client1") "master") (returned (Some "c1"));
      Ev (get_client_group_rolemapping_by_id (Some "g1") (Some "c1") (Some "r3") "master")
         (returned None)]) /\
  (run_main (client_task present [by_name "role_name3"]) handle s0).1 =
    (fail_json
       (Fmt "Could not fetch role %s for client_id %s or realm %s"
            [ArgStr (Some "role_name3"); ArgStr (Some "client1"); ArgStr (Some "master")]),
     [Ev get_token (returned ());
      Ev (get_client_id (Some "client1") "master") (returned (Some "c1"));
      Ev (get_client_role_id_by_name (Some "c1") (Some "role_name3") "master")
         (returned None)]).
Proof. repeat split; vm_compute; reflexivity. Qed.

(** C2 does not hold as worded: with the offending role in second place the
    first role has been looked up by the time the module fails. *)
Lemma validates_after_earlier_roles : ~ validates_before_any_call.
Proof.
  intros H.
  destruct (H (task present [by_name "role_name1"; nameless])
              [by_name "role_name1"; nameless] nameless eq_refl)
    with (h := handle) (s := s0) as [_ Hc].
  - apply list_elem_of_further, list_elem_of_here.
  - split; reflexivity.
  - vm_compute in Hc. discriminate Hc.
Qed.

(** C9 does not hold as worded: the role given by name alone comes back
    with the id that was looked up. *)
Lemma proposed_holds_looked_up_id : ~ proposed_as_supplied.
Proof.
  intros H.
  eassert (E : run_main (task present [by_name "role_name1"]) handle s0 =
               (exit_json _, _, _)) by (vm_compute; reflexivity).
  apply (H (task present [by_name "role_name1"]) [by_name "role_name1"]
           _ handle s0 _ _ _ eq_refl) in E.
  assert (D : forall a b : pydict, PyList [a] = PyList [b] ->
                                   dict_get a "id" = dict_get b "id")
    by (intros a b [= ->]; reflexivity).
  apply D in E. vm_compute in E. discriminate E.
Qed.

End Scenarios.

(** ** The theorems at work on the sample server *)

Lemma nothing_to_do_witness :
  exists res t,
    run_main (Server.task present [Server.by_name "role_name1"]) Server.handle Server.s1 =
      (exit_json res, t, Server.s1) /\
    changed res = false /\ no_calls is_mutating t.
Proof.
  edestruct (nothing_to_do Server.handle
               (Server.task present [Server.by_name "role_name1"]) Server.s1) as [H Hn];
    [vm_compute; reflexivity | vm_compute; reflexivity |].
  eexists _, _. split; [exact H|]. split; [reflexivity | exact Hn].
Defined.

Lemma check_mode_changes_nothing_witness :
  check_mode (with_check_mode true (Server.task present [Server.by_name "role_name1"])) = true /\
  no_calls is_mutating
    (run_main (with_check_mode true (Server.task present [Server.by_name "role_name1"]))
       Server.handle Server.s0).1.2.
Proof.
  split; [reflexivity|].
  exact (proj1 (check_mode_changes_nothing Server.handle
                  (with_check_mode true (Server.task present [Server.by_name "role_name1"]))
                  Server.s0 eq_refl)).
Defined.

Lemma one_batched_change_witness :
  exists o t s',
    run_main (Server.task present [Server.by_name "role_name1"]) Server.handle Server.s0 =
      (o, t, s') /\
    count_calls is_mutating t <= 1.
Proof.
  eassert (E : run_main (Server.task present [Server.by_name "role_name1"])
                 Server.handle Server.s0 = (_, _, _)) by (vm_compute; reflexivity).
  eexists _, _, _. split; [exact E|].
  exact (proj1 (one_batched_change Server.handle _ _ _ _ _ E)).
Defined.

Lemma unnamed_role_fails_witness :
  roles (Server.task present [Server.by_name "role_name1"; Server.nameless]) =
    Some ([Server.by_name "role_name1"] ++ Server.nameless :: []) /\
  unnamed Server.nameless /\
  is_failure
    (run_main (Server.task present [Server.by_name "role_name1"; Server.nameless])
       Server.handle Server.s0).1.1.
Proof.
  split; [reflexivity|]. split; [split; reflexivity|].
  exact (proj1 (proj1 (unnamed_role_fails Server.handle
                         (Server.task present [Server.by_name "role_name1"; Server.nameless])
                         Server.s0 [Server.by_name "role_name1"] Server.nameless []
                         eq_refl (conj eq_refl eq_refl)))).
Defined.

Lemma proposed_is_resolved_witness :
  exists res t s',
    run_main (Server.task present [Server.by_name "role_name1"]) Server.handle Server.s0 =
      (exit_json res, t, s') /\
    exists l l',
      roles (Server.task present [Server.by_name "role_name1"]) = Some l /\
      proposed res = PyList l' /\ Forall2 resolved_from l l' /\
      exists g c t0 s0 t1 t2,
        run (resolve_ids (Server.task present [Server.by_name "role_name1"]))
          Server.handle Server.s0 = (inl (g, c), t0, s0) /\
        t = t0 ++ t1 ++ t2 /\
        Forall3 (looked_up (Server.task present [Server.by_name "role_name1"]) g c) l t1 l'.
Proof.
  eassert (E : run_main (Server.task present [Server.by_name "role_name1"])
                 Server.handle Server.s0 = (exit_json _, _, _)) by (vm_compute; reflexivity).
  eexists _, _, _. split; [exact E|].
  exact (proposed_is_resolved Server.handle _ _ _ _ _ E).
Defined.

(** * More properties of [main] *)

(** ** What the calls of a run are about *)

Lemma for_each_avoids {A B} f (body : A -> prog B) l :
  (forall x, avoids f (body x)) -> avoids f (for_each body l).
Proof.
  intros Hb. induction l as [|x l IH]; cbn [for_each]; [constructor|].
  apply avoids_bind; [apply Hb|]. intros x'.
  apply avoids_bind; [exact IH|]. intros l'. constructor.
Qed.

Lemma main_trace {S} p (h : handler S) s :
  (run_main p h s).1.2 = (run (main p) h s).1.2.
Proof.
  unfold run_main. destruct (run (main p) h s) as [[[[]|o] t] s']. reflexivity.
Qed.

Lemma main_avoids {S} f p (h : handler S) s :
  avoids f (main p) -> no_calls f (run_main p h s).1.2.
Proof.
  intros H. rewrite main_trace.
  destruct (run (main p) h s) as [[x t] s'] eqn:E.
  exact (avoids_run f (main p) h s x t s' H E).
Qed.

Ltac unfold_main :=
  unfold main, prelude, resolve, resolve_ids, resolve_group, resolve_client,
    resolve_all_roles, resolve_roles, get_rolemappings, finish,
    get_assigned_roles_after.

Ltac avoid_by tac :=
  repeat first
    [ apply avoids_Ret
    | apply avoids_Halt
    | match goal with
      | |- avoids ?f (call ?c) => apply (avoids_call f c); tac
      end
    | apply avoids_raise_or_ret
    | apply for_each_avoids; intros ?; unfold resolve_role
    | apply avoids_bind; [|intros ?]
    | match goal with
      | |- avoids _ (if is_None ?x then _ else _) => destruct x; cbn [is_None]
      | |- avoids _ (if ?b then _ else _) => destruct b
      | |- avoids _ (match ?x with _ => _ end) => destruct x
      end ].

(** X1.  Every call of a run to the client is made for the realm of the
    task. *)
Theorem calls_stay_in_realm {S} p (h : handler S) s :
  no_calls (other_realm p) (run_main p h s).1.2.
Proof.
  apply main_avoids. unfold_main.
  avoid_by ltac:(unfold other_realm; cbn [call_realm];
                 first [reflexivity | rewrite bool_decide_eq_true_2 by reflexivity; reflexivity]).
Qed.

(** ** The group, the client and the calls made for them *)

Section Ids.
Context {S : Type} (h : handler S).

Lemma resolve_ids_run p s x t s' :
  run (resolve_ids p) h s = (x, t, s') ->
  no_calls is_later_call t /\
  (gid p <> None -> no_calls is_group_lookup t) /\
  (cid p <> None \/ client_id p = None -> no_calls is_client_lookup t) /\
  (forall g c, x = inl (g, c) -> ids_ok p g c).
Proof.
  unfold resolve_ids, resolve_group, resolve_client, ids_ok.
  destruct (gid p), (target_groupname p), (cid p), (client_id p);
    cbn [is_None andb negb]; simpl;
    repeat (match goal with
            | |- context [h ?c ?st] => destruct (h c st) as [[?|?] ?]
            | |- context [is_None ?x] => destruct x
            | |- context [match ?x with Some _ => _ | None => _ end] => destruct x
            end; simpl);
    intros [= <- <- <-];
    (split; [solve [repeat constructor]|]);
    (split; [intros ?; first [done | solve [repeat constructor]]|]);
    (split; [intros [?|?]; first [done | solve [repeat constructor]]|]);
    intros ? ? Hx; simplify_eq; repeat split; intros; try done; intuition congruence.
Qed.

Lemma wrong_call_finish p r : avoids (wrong_call p (r_gid r) (r_cid r)) (finish p r).
Proof.
  destruct r as [g c l av asg]. unfold finish, get_assigned_roles_after.
  cbn [r_gid r_cid]. destruct c;
  avoid_by ltac:(unfold wrong_call; cbn [is_None negb andb];
                 rewrite ?bool_decide_eq_true_2 by reflexivity; reflexivity).
Qed.

Lemma wrong_call_roles p g c l : avoids (wrong_call p g c) (resolve_roles p g c l).
Proof.
  unfold resolve_roles. destruct c;
  avoid_by ltac:(unfold wrong_call; cbn [is_None negb andb];
                 rewrite ?bool_decide_eq_true_2 by reflexivity; reflexivity).
Qed.

Lemma wrong_call_rolemappings p g c : avoids (wrong_call p g c) (get_rolemappings p g c).
Proof.
  unfold get_rolemappings. destruct c;
  avoid_by ltac:(unfold wrong_call; cbn [is_None negb andb];
                 rewrite ?bool_decide_eq_true_2 by reflexivity; reflexivity).
Qed.

(** A run is the resolution of the group and the client, followed, when it
    succeeds, by calls made for that group and that client only. *)
Lemma run_main_calls p s :
  exists x t0 s0 t1,
    run (resolve_ids p) h s = (x, t0, s0) /\
    (run_main p h s).1.2 = t0 ++ t1 /\
    match x with
    | inl (g, c) => no_calls (wrong_call p g c) t1
    | inr _ => t1 = []
    end.
Proof.
  rewrite run_main_prelude. unfold prelude. rewrite run_bind. unfold resolve.
  rewrite run_bind.
  destruct (run (resolve_ids p) h s) as [[[[g c]|o] t0] s0] eqn:E.
  - exists (inl (g, c)), t0, s0. rewrite run_bind.
    assert (Hr : avoids (wrong_call p g c) (resolve_all_roles p g c)).
    { unfold resolve_all_roles. destruct (roles p); [apply wrong_call_roles | constructor]. }
    destruct (run (resolve_all_roles p g c) h s0) as [[[l|o] t1] s1] eqn:R.
    + pose proof (avoids_run _ _ _ _ _ _ _ Hr R) as H1. cbn [run]. rewrite app_nil_r.
      rewrite run_bind.
      destruct (run (get_rolemappings p g c) h s1) as [[[[av asg]|o] t2] s2] eqn:F.
      * pose proof (avoids_run _ _ _ _ _ _ _ (wrong_call_rolemappings p g c) F) as H2.
        cbn [run]. rewrite app_nil_r.
        destruct (run (finish p _) h s2) as [[[[]|o] t3] s3] eqn:G.
        pose proof (avoids_run _ _ _ _ _ _ _ (wrong_call_finish p _) G) as H3.
        cbn [r_gid r_cid] in H3.
        exists ((t1 ++ t2) ++ t3). cbn [fst snd]. rewrite <- !app_assoc.
        split; [reflexivity|]. split; [reflexivity|].
        apply no_calls_app. split; [exact H1|]. apply no_calls_app. done.
      * pose proof (avoids_run _ _ _ _ _ _ _ (wrong_call_rolemappings p g c) F) as H2.
        exists (t1 ++ t2). cbn [fst snd]. rewrite <- !app_assoc.
        split; [reflexivity|]. split; [reflexivity|]. apply no_calls_app. done.
    + pose proof (avoids_run _ _ _ _ _ _ _ Hr R) as H1.
      exists t1. cbn [fst snd]. done.
  - exists (inr o), t0, s0, []. cbn [fst snd]. rewrite app_nil_r. done.
Qed.

End Ids.

Section Scopes.
Context {S : Type} (h : handler S).

Ltac wrong_call_inv H :=
  unfold wrong_call in H; apply negb_false_iff in H;
  repeat match type of H with
    | _ && _ = true => let H' := fresh in apply andb_prop in H as [H H']
    end;
  repeat match goal with
    | H' : bool_decide _ = true |- _ => apply bool_decide_eq_true_1 in H'
    | H' : is_None ?x = true |- _ => apply is_None_true in H'
    | H' : negb (is_None ?x) = true |- _ => apply negb_true_iff, is_None_false in H'
    end; subst.

Lemma wrong_call_group p g c c' :
  wrong_call p g c c' = false ->
  is_group_lookup c' = false /\ is_client_lookup c' = false /\ other_group g c' = false.
Proof.
  intros H. destruct c'; try discriminate H; wrong_call_inv H;
    unfold other_group; cbn [call_gid is_group_lookup is_client_lookup];
    rewrite ?bool_decide_eq_true_2 by reflexivity; done.
Qed.

Lemma wrong_call_realm_scope p g c' :
  wrong_call p g None c' = false -> is_client_scoped c' = false.
Proof. intros H. destruct c'; try discriminate H; wrong_call_inv H; try done. Qed.

Lemma wrong_call_client_scope p g ci c' :
  wrong_call p g (Some ci) c' = false -> is_realm_scoped c' = false.
Proof. intros H. destruct c'; try discriminate H; wrong_call_inv H; try done. Qed.

Lemma later_call_neither c :
  is_later_call c = false ->
  is_realm_scoped c = false /\ is_client_scoped c = false /\
  forall g, other_group g c = false.
Proof. destruct c; try discriminate; done. Qed.

(** X2.  When the task gives [gid], the group is never looked up by name and
    every call that takes a group id takes the one given. *)
Theorem group_id_given p s :
  gid p <> None ->
  no_calls (fun c => is_group_lookup c || other_group (gid p) c) (run_main p h s).1.2.
Proof.
  intros Hg. destruct (run_main_calls h p s) as (x & t0 & s0 & t1 & E & -> & Hx).
  apply resolve_ids_run in E as (Hl & Hgl & _ & Hok).
  apply no_calls_app. split.
  - specialize (Hgl Hg). unfold no_calls in *.
    rewrite Forall_forall in Hl, Hgl. apply Forall_forall. intros e He.
    rewrite (Hgl e He). apply later_call_neither, Hl, He.
  - destruct x as [[g c]|o]; [|subst; constructor].
    destruct (Hok g c eq_refl) as (Hg' & _). rewrite <- (Hg' Hg).
    eapply Forall_impl; [exact Hx|]. intros e He. cbv beta in He.
    apply wrong_call_group in He as (-> & _ & ->). reflexivity.
Qed.

(** X3.  The client is looked up only when the task gives a [client_id] and no
    [cid]. *)
Theorem client_lookup_skipped p s :
  cid p <> None \/ client_id p = None ->
  no_calls is_client_lookup (run_main p h s).1.2.
Proof.
  intros Hc. destruct (run_main_calls h p s) as (x & t0 & s0 & t1 & E & -> & Hx).
  apply resolve_ids_run in E as (_ & _ & Hcl & _).
  apply no_calls_app. split; [exact (Hcl Hc)|].
  destruct x as [[g c]|o]; [|subst; constructor].
  eapply Forall_impl; [exact Hx|]. intros e He. cbv beta in He.
  apply wrong_call_group in He as (_ & -> & _). reflexivity.
Qed.

(** X4.  A run never mixes the two scopes.  Without [cid] and [client_id] it
    makes no call about the roles of a client and does not look a client up;
    with one of them it makes no call about the roles of the realm. *)
Theorem scopes_never_mixed p s :
  (cid p = None -> client_id p = None ->
   no_calls (fun c => is_client_scoped c || is_client_lookup c) (run_main p h s).1.2) /\
  (cid p <> None \/ client_id p <> None ->
   no_calls is_realm_scoped (run_main p h s).1.2).
Proof.
  destruct (run_main_calls h p s) as (x & t0 & s0 & t1 & E & -> & Hx).
  apply resolve_ids_run in E as (Hl & _ & Hcl & Hok). split.
  - intros Hc Hci. apply no_calls_app. split.
    + specialize (Hcl (or_intror Hci)). unfold no_calls in *.
      rewrite Forall_forall in Hl, Hcl. apply Forall_forall. intros e He.
      rewrite (Hcl e He). destruct (later_call_neither _ (Hl e He)) as (_ & -> & _).
      reflexivity.
    + destruct x as [[g c]|o]; [|subst; constructor].
      destruct (Hok g c eq_refl) as (_ & Hc' & _).
      rewrite (Hc' (or_intror Hci)), Hc in Hx.
      eapply Forall_impl; [exact Hx|]. intros e He. cbv beta in He.
      rewrite (wrong_call_realm_scope _ _ _ He).
      apply wrong_call_group in He as (_ & -> & _). reflexivity.
  - intros Hc. apply no_calls_app. split.
    + eapply Forall_impl; [exact Hl|]. intros e He. apply later_call_neither, He.
    + destruct x as [[g c]|o]; [|subst; constructor].
      destruct (Hok g c eq_refl) as (_ & Hc1 & Hc2).
      assert (Hn : c <> None).
      { destruct (cid p) as [ci|] eqn:Hcid.
        - assert (Hs : Some ci <> None) by done.
          rewrite (Hc1 (or_introl Hs)). done.
        - apply Hc2; [reflexivity|]. destruct Hc; done. }
      destruct c as [ci|]; [|done].
      eapply Forall_impl; [exact Hx|]. intros e He.
      exact (wrong_call_client_scope _ _ _ _ He).
Qed.

End Scopes.

(** ** What a run has done when it exits *)

Section Exits.
Context {S : Type} (h : handler S).

Lemma get_rolemappings_inl p g c s av asg t s' :
  run (get_rolemappings p g c) h s = (inl (av, asg), t, s') ->
  exists e1 e2, t = [e1; e2] /\
    is_fetch (ev_call e1) = true /\ is_fetch (ev_call e2) = true /\
    fetched_roles e2 = Some asg.
Proof.
  unfold get_rolemappings. intros H. destruct c; cbn [is_None] in H; run_inv;
    eexists (Ev _ _), (Ev _ _); done.
Qed.

Lemma prelude_inl p s r t s' :
  run (prelude p) h s = (inl r, t, s') ->
  exists l t0 s0 t1 s1 t2,
    roles p = Some l /\
    run (resolve_ids p) h s = (inl (r_gid r, r_cid r), t0, s0) /\
    run (resolve_roles p (r_gid r) (r_cid r) l) h s0 = (inl (r_roles r), t1, s1) /\
    run (get_rolemappings p (r_gid r) (r_cid r)) h s1 =
      (inl (available_roles_before r, assigned_roles_before r), t2, s') /\
    t = t0 ++ t1 ++ t2.
Proof.
  unfold prelude. intros E.
  apply run_bind_inl in E as ([[g c] l'] & ta & sa & tb & R & G & ->).
  apply run_bind_inl in G as ([av asg] & t2 & s2 & tc & F & G & ->).
  simpl in G. injection G as <- <- <-.
  unfold resolve in R.
  apply run_bind_inl in R as ([g' c'] & t0 & s0 & td & I & R & ->).
  apply run_bind_inl in R as (l'' & t1 & s1 & te & R & G & ->).
  simpl in G. injection G as -> -> -> <- <-.
  unfold resolve_all_roles in R. destruct (roles p) as [l|]; [|discriminate].
  exists l, t0, s0, t1, s1, t2. cbn [r_gid r_cid r_roles available_roles_before
                                    assigned_roles_before].
  rewrite !app_nil_r, <- app_assoc. done.
Qed.

Lemma run_main_exit p s res t s' :
  run_main p h s = (exit_json res, t, s') ->
  exists r t0 s0 t1,
    run (prelude p) h s = (inl r, t0, s0) /\
    run (finish p r) h s0 = (inr (exit_json res), t1, s') /\
    t = t0 ++ t1.
Proof.
  intros H. destruct (run (prelude p) h s) as [[[r|o] t0] s0] eqn:E.
  - destruct (run_main_resolved h p s r t0 s0 E) as (o1 & t1 & s1 & F & M).
    rewrite M in H. injection H as -> <- <-. eauto 10.
  - rewrite (run_main_failed h p s o t0 s0 E) in H. injection H as -> _ _.
    assert (Hn : no_result (exit_json res)).
    { apply (halts_run no_result _ h s _ t0 s0 (halts_prelude p)); [|exact E].
      intros e. exact I. }
    destruct Hn.
Qed.

(** The three ways [finish] exits with the result dict. *)
Lemma finish_exit p r s res t s' :
  run (finish p r) h s = (inr (exit_json res), t, s') ->
  (update_roles p r = [] /\ t = [] /\
   res = set_msg (msg_nothing p r) (set_changed false (result_before r))) \/
  (update_roles p r <> [] /\ check_mode p = true /\ t = [] /\
   res = result_changed p r) \/
  (update_roles p r <> [] /\ check_mode p = false /\
   exists e e2 l, t = [e; e2] /\ ev_call e = mutation p r /\
     ev_call e2 = refetch p r /\ fetched_roles e2 = Some l /\
     res = set_end_state (PyList l) (set_msg (msg_changed p r) (result_changed p r))).
Proof.
  intros F. destruct (decide (update_roles p r = [])) as [U|U].
  - rewrite (finish_nothing h p r s U) in F. injection F as <- <- <-. left. done.
  - right. destruct (check_mode p) eqn:C.
    + rewrite (finish_check_mode h p r s U C) in F. injection F as <- <- <-. left. done.
    + right. apply finish_live in F as (o2 & e & [= <-] & He & F); [|done..].
      destruct F as [(_ & _ & m & [=])|(e2 & -> & _ & He2 & [(_ & m & [=])|(l & Hl & [= ->])])].
      split; [done|]. split; [done|]. exists e, e2, l. done.
Qed.

Lemma changed_result_changed p r : changed (result_changed p r) = true.
Proof. unfold result_changed. destruct (_diff p); reflexivity. Qed.

Lemma resolved_has_name_and_id role role' :
  ~ unnamed role -> resolved_from role role' -> has_name_and_id role'.
Proof.
  unfold unnamed, resolved_from, has_name_and_id.
  intros Hu [(Hi & i & ->)|(Hi & n & ->)]; unfold dict_get;
    rewrite ?lookup_insert_eq, ?lookup_insert_ne by done; fold (dict_get role "name");
    fold (dict_get role "id"); split; try done.
  intros Hn. apply Hu. done.
Qed.

Lemma resolved_roles_have_name_and_id p s r t s' :
  run (prelude p) h s = (inl r, t, s') ->
  Forall has_name_and_id (r_roles r) /\ Forall has_name_and_id (update_roles p r).
Proof.
  intros E. apply prelude_inl in E as (l & t0 & s0 & t1 & s1 & t2 & _ & _ & R & _).
  apply resolve_roles_inl in R as (Hf & Hu & _).
  assert (Hr : Forall has_name_and_id (r_roles r)).
  { revert Hu. induction Hf as [|role role' l l' Hrr Hf IH]; intros Hu; [constructor|].
    inversion Hu; subst. constructor; [|auto]. eapply resolved_has_name_and_id; eauto. }
  split; [exact Hr|]. apply Forall_forall. intros e He.
  apply elem_of_compute_update_roles in He as (role & Hin & -> & _).
  rewrite Forall_forall in Hr. destruct (Hr role Hin) as [Hn Hi].
  split; [rewrite entry_get_name | rewrite entry_get_id]; assumption.
Qed.

(** X8.  Whatever list of roles a run hands to the client to add or remove
    is not empty, and each of its roles has a name and an id. *)
Theorem roles_sent_are_complete p s e l :
  e ∈ (run_main p h s).1.2 ->
  role_rep_of (ev_call e) = Some l ->
  l <> [] /\ Forall has_name_and_id l.
Proof.
  intros He Hl.
  assert (Hm : forall t, no_calls is_mutating t -> e ∈ t -> False).
  { intros t Ht Hin. unfold no_calls in Ht. rewrite Forall_forall in Ht.
    specialize (Ht e Hin). destruct (ev_call e); done. }
  rewrite run_main_prelude in He.
  destruct (run (prelude p) h s) as [[[r|o] t0] s0] eqn:E.
  - pose proof (avoids_run _ _ _ _ _ _ _ (prelude_avoids p) E) as Ht0.
    destruct (run (finish p r) h s0) as [[[[]|o] t1] s1] eqn:F. cbn [fst snd] in He.
    apply elem_of_app in He as [He|He]; [destruct (Hm _ Ht0 He)|].
    destruct (decide (update_roles p r = [])) as [U|U].
    { rewrite (finish_nothing h p r s0 U) in F. injection F as <- <- <-. inversion He. }
    destruct (check_mode p) eqn:C.
    { rewrite (finish_check_mode h p r s0 U C) in F. injection F as <- <- <-. inversion He. }
    apply finish_live in F as (o2 & e1 & _ & He1 & F); [|done..].
    assert (Hr : is_mutating (refetch p r) = false)
      by (unfold refetch; destruct (r_cid r); reflexivity).
    assert (He' : e = e1).
    { destruct F as [(-> & _)|(e2 & -> & _ & He2 & _)].
      - apply list_elem_of_singleton in He. exact He.
      - apply elem_of_cons in He as [He|He]; [exact He|].
        apply list_elem_of_singleton in He. subst e.
        rewrite He2 in Hl. unfold refetch in Hl. destruct (r_cid r); discriminate. }
    subst e1. rewrite He1 in Hl. unfold mutation in Hl.
    assert (Hl' : l = update_roles p r) by (destruct (state p); cbn [role_rep_of] in Hl; congruence).
    subst l. split; [exact U|].
    exact (proj2 (resolved_roles_have_name_and_id p s r t0 s0 E)).
  - cbn [fst snd] in He.
    destruct (Hm _ (avoids_run _ _ _ _ _ _ _ (prelude_avoids p) E) He).
Qed.

End Exits.

Section Budget.
Context {S : Type} (h : handler S).

Lemma count_calls_all f t :
  Forall (fun e => f (ev_call e) = true) t -> count_calls f t = length t.
Proof.
  unfold count_calls. induction 1 as [|e t He Ht IH]; [reflexivity|]. simpl.
  rewrite He. simpl. rewrite IH. reflexivity.
Qed.

Lemma count_calls_none f t :
  Forall (fun e => f (ev_call e) = false) t -> count_calls f t = 0.
Proof. apply no_calls_count. Qed.

(** The trace of a run that exits with the result dict, phase by phase. *)
Lemma exit_trace p s res t s' l :
  run_main p h s = (exit_json res, t, s') ->
  roles p = Some l ->
  exists r t0 t1 t2 t3 s3,
    t = t0 ++ t1 ++ t2 ++ t3 /\
    count_calls is_kc t0 = id_lookups p /\ no_calls is_later_call t0 /\
    length t1 = length l /\ Forall (fun e => is_role_lookup (ev_call e) = true) t1 /\
    (exists e1 e2, t2 = [e1; e2] /\ is_fetch (ev_call e1) = true /\
                   is_fetch (ev_call e2) = true) /\
    run (finish p r) h s3 = (inr (exit_json res), t3, s').
Proof.
  intros H Hl. apply run_main_exit in H as (r & ta & sa & t3 & E & F & ->).
  apply prelude_inl in E as (l' & t0 & s0 & t1 & s1 & t2 & Hl' & I & R & G & ->).
  rewrite Hl in Hl'. injection Hl' as <-.
  exists r, t0, t1, t2, t3, sa. rewrite <- !app_assoc. split; [reflexivity|].
  split; [exact (resolve_ids_inl h p s _ _ t0 s0 I)|].
  split; [exact (proj1 (resolve_ids_run h p s _ t0 s0 I))|].
  apply resolve_roles_inl in R as (_ & _ & Hlen & Hlk).
  apply get_rolemappings_inl in G as (e1 & e2 & -> & H1 & H2 & _).
  split; [exact Hlen|]. split; [exact Hlk|]. split; [eauto|]. exact F.
Qed.

Lemma later_call_kinds c :
  is_later_call c = false ->
  is_role_lookup c = false /\ is_fetch c = false /\ is_mutating c = false.
Proof. destruct c; done. Qed.

(** X9.  A run that exits with the result dict has looked up each role of the
    task exactly once, whether the task gave its name, its id or both. *)
Theorem one_lookup_per_role p s res t s' l :
  run_main p h s = (exit_json res, t, s') ->
  roles p = Some l ->
  count_calls is_role_lookup t = length l.
Proof.
  intros H Hl.
  destruct (exit_trace p s res t s' l H Hl)
    as (r & t0 & t1 & t2 & t3 & s3 & -> & _ & H0 & Hlen & H1 & (e1 & e2 & -> & He1 & He2) & F).
  rewrite !count_calls_app, (count_calls_all _ t1 H1), Hlen.
  rewrite (count_calls_none is_role_lookup t0)
    by (eapply Forall_impl; [exact H0|]; intros e He; apply later_call_kinds, He).
  assert (H2 : count_calls is_role_lookup [e1; e2] = 0).
  { unfold count_calls. simpl.
    destruct (ev_call e1); try discriminate He1; destruct (ev_call e2); try discriminate He2;
      reflexivity. }
  assert (H3 : count_calls is_role_lookup t3 = 0).
  { apply finish_exit in F as [(_ & -> & _)|[(_ & _ & -> & _)|(_ & _ & e & e' & l' & -> & He & He' & _)]];
      [reflexivity..|].
    unfold count_calls. simpl. rewrite He, He'. unfold mutation, refetch.
    destruct (state p), (r_cid r); reflexivity. }
  rewrite H2, H3. lia.
Qed.

(** X12.  The calls to the client of a run that exits with the result dict:
    the lookups of the group and the client that were needed, one lookup for
    each role, the two fetches, and, when something was changed outside check
    mode, the change and one more fetch. *)
Theorem calls_of_a_run p s res t s' l :
  run_main p h s = (exit_json res, t, s') ->
  roles p = Some l ->
  count_calls is_kc t =
    id_lookups p + length l + 2 +
    (if changed res && negb (check_mode p) then 2 else 0) /\
  count_calls is_fetch t = (if changed res && negb (check_mode p) then 3 else 2).
Proof.
  intros H Hl.
  destruct (exit_trace p s res t s' l H Hl)
    as (r & t0 & t1 & t2 & t3 & s3 & -> & Hid & H0 & Hlen & H1 & (e1 & e2 & -> & He1 & He2) & F).
  rewrite !count_calls_app, Hid.
  assert (Hk1 : count_calls is_kc t1 = length l).
  { rewrite <- Hlen. apply count_calls_all. eapply Forall_impl; [exact H1|].
    intros e He. cbv beta in He. destruct (ev_call e); done. }
  assert (Hf0 : count_calls is_fetch t0 = 0).
  { apply count_calls_none. eapply Forall_impl; [exact H0|].
    intros e He. apply later_call_kinds, He. }
  assert (Hf1 : count_calls is_fetch t1 = 0).
  { apply count_calls_none. eapply Forall_impl; [exact H1|].
    intros e He. cbv beta in He. destruct (ev_call e); done. }
  assert (Hk2 : count_calls is_kc [e1; e2] = 2 /\ count_calls is_fetch [e1; e2] = 2).
  { unfold count_calls. simpl. rewrite He1, He2.
    destruct (ev_call e1); try discriminate He1; destruct (ev_call e2); try discriminate He2;
      done. }
  destruct Hk2 as [Hk2 Hf2]. rewrite Hk1, Hk2, Hf0, Hf1, Hf2.
  apply finish_exit in F as [(_ & -> & ->)|[(_ & C & -> & ->)|(_ & C & e & e' & l' & -> & He & He' & _ & ->)]].
  - cbn. split; lia.
  - rewrite changed_result_changed, C. cbn. split; lia.
  - cbn [changed set_end_state set_msg]. rewrite changed_result_changed, C.
    unfold count_calls. simpl. rewrite He, He'. unfold mutation, refetch.
    destruct (state p), (r_cid r); cbn; split; lia.
Qed.

(** X10.  The [diff] of the result dict is filled only when the task asks for
    it and something is to change; it then holds the roles assigned before
    under [before] and, under [after], the list of roles to add or remove.
    [existing] always holds the roles assigned before, and [changed] tells
    whether that list is empty. *)
Theorem diff_payload p s res t s' :
  run_main p h s = (exit_json res, t, s') ->
  exists r t0 s0,
    run (prelude p) h s = (inl r, t0, s0) /\
    existing res = PyList (assigned_roles_before r) /\
    changed res = negb (bool_decide (update_roles p r = [])) /\
    diff res =
      (if _diff p && changed res
       then Some {| before := assigned_roles_before r; after := update_roles p r |}
       else None).
Proof.
  intros H. apply run_main_exit in H as (r & t0 & s0 & t1 & E & F & ->).
  exists r, t0, s0. split; [exact E|].
  apply finish_exit in F as [(U & _ & ->)|[(U & _ & _ & ->)|(U & _ & e & e' & l' & _ & _ & _ & _ & ->)]].
  - rewrite (bool_decide_eq_true_2 _ U). cbn. rewrite andb_false_r. done.
  - rewrite (bool_decide_eq_false_2 _ U). unfold result_changed.
    destruct (_diff p); done.
  - rewrite (bool_decide_eq_false_2 _ U). unfold result_changed.
    destruct (_diff p); done.
Qed.

(** X11.  In check mode a run that finds something to change reports
    [changed=True] with the empty message and the empty [end_state] the
    result dict started with. *)
Theorem check_mode_result p s res t s' :
  check_mode p = true ->
  run_main p h s = (exit_json res, t, s') ->
  changed res = true ->
  msg res = Fmt "" [] /\ end_state res = PyEmptyDict.
Proof.
  intros C H Hc. apply run_main_exit in H as (r & t0 & s0 & t1 & E & F & ->).
  apply finish_exit in F as [(_ & _ & ->)|[(_ & _ & _ & ->)|(_ & C' & _)]].
  - discriminate Hc.
  - unfold result_changed. destruct (_diff p); done.
  - congruence.
Qed.

End Budget.

(** ** Edges of the input *)

Section Edges.
Context {S : Type} (h : handler S).

(** X7.  Without [roles] the module never looks a role up, never fetches the
    role mappings and never changes them, and it never reports the result
    dict.  As soon as the group and the client are resolved it exits with the
    message that no roles were specified, having asked the client for nothing
    but the group and the client. *)
Theorem no_roles_given p s :
  roles p = None ->
  (no_calls is_later_call (run_main p h s).1.2 /\
   forall res, (run_main p h s).1.1 <> exit_json res) /\
  forall g c t0 s0,
    run (resolve_ids p) h s = (inl (g, c), t0, s0) ->
    run_main p h s =
      (exit_json_msg (Fmt "Nothing to do (no roles specified)." []), t0, s0) /\
    count_calls is_kc t0 = id_lookups p.
Proof.
  intros Hr.
  assert (R : exists o, run (resolve p) h s =
                        (inr o, (run (resolve_ids p) h s).1.2, (run (resolve_ids p) h s).2) /\
                        no_result o /\
                        forall g c, (run (resolve_ids p) h s).1.1 = inl (g, c) ->
                          o = exit_json_msg (Fmt "Nothing to do (no roles specified)." [])).
  { unfold resolve. rewrite run_bind.
    destruct (run (resolve_ids p) h s) as [[[[g c]|o] t0] s0] eqn:E.
    - rewrite run_bind. unfold resolve_all_roles. rewrite Hr. cbn. rewrite app_nil_r.
      eexists. split; [reflexivity|]. done.
    - exists o. split; [reflexivity|]. split; [|intros g c [=]].
      assert (Hf : is_failure o).
      { apply (halts_run is_failure _ h s o t0 s0 (halts_resolve_ids p)); [|exact E].
        intros e. exact I. }
      destruct o; done. }
  destruct R as (o & R & Ho & Hok).
  rewrite (run_main_unresolved h p s o _ _ R). cbn [fst snd]. split.
  - split.
    + destruct (run (resolve_ids p) h s) as [[x t0] s0] eqn:E.
      exact (proj1 (resolve_ids_run h p s x t0 s0 E)).
    + intros res ->. exact Ho.
  - intros g c t0 s0 E. rewrite E in *. cbn [fst snd] in *.
    rewrite (Hok g c eq_refl). split; [reflexivity|].
    exact (resolve_ids_inl h p s g c t0 s0 E).
Qed.

(** X13.  With an empty list of roles no role is looked up and nothing is
    changed; a run that gets through the two fetches reports [changed=False],
    an empty [proposed] and the message that there is nothing to do. *)
Theorem empty_role_list p s :
  roles p = Some [] ->
  no_calls is_role_lookup (run_main p h s).1.2 /\
  no_calls is_mutating (run_main p h s).1.2 /\
  forall res,
    (run_main p h s).1.1 = exit_json res ->
    changed res = false /\ proposed res = PyList [] /\
    msg res = Fmt "Nothing to do, roles %s are correctly mapped to group %s."
                  [ArgRoles []; ArgStr (target_groupname p)].
Proof.
  intros Hr. rewrite run_main_prelude.
  assert (Hav : avoids (fun c => is_role_lookup c || is_mutating c) (prelude p)).
  { unfold prelude, resolve, resolve_ids, resolve_group, resolve_client,
      resolve_all_roles, get_rolemappings.
    rewrite Hr. unfold resolve_roles. cbn [for_each]. avoid_by ltac:(reflexivity). }
  assert (Hsplit : forall t, no_calls (fun c => is_role_lookup c || is_mutating c) t ->
                             no_calls is_role_lookup t /\ no_calls is_mutating t).
  { intros t Ht. split; (eapply Forall_impl; [exact Ht|]); intros e He; cbv beta in He;
      apply orb_false_elim in He as [? ?]; assumption. }
  destruct (run (prelude p) h s) as [[[r|o] t0] s0] eqn:E.
  - destruct (Hsplit _ (avoids_run _ _ _ _ _ _ _ Hav E)) as [H1 H2].
    assert (Hl : r_roles r = []).
    { apply prelude_inl in E as (l & ta & sa & tb & sb & tc & Hl & _ & R & _).
      rewrite Hr in Hl. injection Hl as <-. cbn in R. injection R as <- _ _. reflexivity. }
    assert (U : update_roles p r = []) by (unfold update_roles; rewrite Hl; reflexivity).
    rewrite (finish_nothing h p r s0 U), app_nil_r. cbn [fst snd].
    split; [exact H1|]. split; [exact H2|].
    intros res [= <-]. unfold msg_nothing, result_before. cbn. rewrite Hl. done.
  - destruct (Hsplit _ (avoids_run _ _ _ _ _ _ _ Hav E)) as [H1 H2]. cbn [fst snd].
    split; [exact H1|]. split; [exact H2|]. intros res ->.
    assert (Hn : no_result (exit_json res)).
    { apply (halts_run no_result _ h s _ t0 s0 (halts_prelude p)); [|exact E].
      intros e. exact I. }
    destruct Hn.
Qed.

(** X5.  Without [gid] the group is looked up by [target_groupname] right
    after the token; with neither of the two the module asks the client
    nothing and fails, and when no group has that name it fails naming it. *)
Theorem group_not_resolved p s a s1 :
  h get_token s = (returned a, s1) ->
  gid p = None ->
  match target_groupname p with
  | None =>
      run_main p h s =
      (fail_json (Fmt "Either the `target_groupname` or `gid` has to be specified." []),
       [Ev get_token (returned a)], s1)
  | Some name =>
      forall s2,
        h (get_group_by_name (Some name) (realm p)) s1 = (returned None, s2) ->
        run_main p h s =
        (fail_json (Fmt "Could not fetch group for name %s:" [ArgStr (Some name)]),
         [Ev get_token (returned a);
          Ev (get_group_by_name (Some name) (realm p)) (returned None)], s2)
  end.
Proof.
  intros Ht Hg. destruct (target_groupname p) as [name|] eqn:Hn.
  - intros s2 Hl. apply run_main_unresolved.
    unfold resolve, resolve_ids, resolve_group. rewrite Hg, Hn. simpl.
    rewrite Ht, Hl. reflexivity.
  - apply run_main_unresolved.
    unfold resolve, resolve_ids, resolve_group. rewrite Hg, Hn. simpl.
    rewrite Ht. reflexivity.
Qed.

(** X6.  A [client_id] given without [cid] is looked up once the group is
    known; when the client does not exist the module fails naming the
    [client_id], before any role is looked up. *)
Theorem client_not_found p s a s1 g tg s2 s3 :
  h get_token s = (returned a, s1) ->
  run (resolve_group p) h s1 = (inl g, tg, s2) ->
  cid p = None -> client_id p <> None ->
  h (get_client_id (client_id p) (realm p)) s2 = (returned None, s3) ->
  run_main p h s =
  (fail_json (Fmt "Could not fetch client %s:" [ArgStr (client_id p)]),
   Ev get_token (returned a)
     :: tg ++ [Ev (get_client_id (client_id p) (realm p)) (returned None)],
   s3).
Proof.
  intros Ht Hg Hc Hci Hl. apply run_main_unresolved.
  assert (Hc' : run (resolve_client p) h s2 =
                (inr (fail_json (Fmt "Could not fetch client %s:" [ArgStr (client_id p)])),
                 [Ev (get_client_id (client_id p) (realm p)) (returned None)], s3)).
  { unfold resolve_client. rewrite Hc. destruct (client_id p) as [ci|]; [|done].
    simpl. rewrite Hl. reflexivity. }
  assert (Hi : run (resolve_ids p) h s =
               (inr (fail_json (Fmt "Could not fetch client %s:" [ArgStr (client_id p)])),
                Ev get_token (returned a)
                  :: tg ++ [Ev (get_client_id (client_id p) (realm p)) (returned None)],
                s3)).
  { unfold resolve_ids. rewrite run_bind.
    rewrite (run_call h get_token s), Ht, run_bind, Hg, run_bind, Hc'. reflexivity. }
  unfold resolve. rewrite run_bind, Hi. reflexivity.
Qed.

(** X14.  What the module makes of the realm role found for a name: without
    an [id] key it ends in a [KeyError], with an [id] that is [None] it fails
    as if the role did not exist, and otherwise it writes the id into the
    role of the task and keeps the name. *)
Theorem realm_role_found p g role name d s s1 :
  dict_get role "id" = None ->
  dict_get role "name" = Some name ->
  h (get_realm_role (Some name) (realm p)) s = (returned (Some d), s1) ->
  run (resolve_role p g None role) h s =
  (match d !! "id" with
   | None => inr (uncaught KeyError)
   | Some None => inr (fail_json (could_not_fetch_role (Some name) p))
   | Some (Some i) => inl (<["id" := Some i]> role)
   end,
   [Ev (get_realm_role (Some name) (realm p)) (returned (Some d))], s1).
Proof.
  intros Hi Hn Hl. unfold resolve_role. rewrite Hi, Hn. simpl. rewrite Hl.
  unfold subscript. destruct (d !! "id") as [[i|]|]; reflexivity.
Qed.

(** X16.  A role given with an id gets its name from the mapping of the group
    found under that id, whatever name the task gave: without a [name] key the
    module ends in a [KeyError], with a [name] that is [None] it fails naming
    the id, and otherwise the name found replaces the name of the task. *)
Theorem role_id_decides_name p g c role i d s s1 :
  dict_get role "id" = Some i ->
  (match c with
   | None => h (get_realm_group_rolemapping_by_id g (Some i) (realm p)) s
   | Some _ => h (get_client_group_rolemapping_by_id g c (Some i) (realm p)) s
   end) = (returned (Some d), s1) ->
  exists e,
    run (resolve_role p g c role) h s =
    (match d !! "name" with
     | None => inr (uncaught KeyError)
     | Some None => inr (fail_json (could_not_fetch_role (Some i) p))
     | Some (Some n) => inl (<["name" := Some n]> role)
     end, [e], s1) /\
    is_role_lookup (ev_call e) = true.
Proof.
  intros Hi Hl.
  assert (Hget : forall v, dict_get (<["name" := v]> role) "name" = v)
    by (intros v; unfold dict_get; rewrite lookup_insert_eq; reflexivity).
  assert (Hid : forall v, dict_get (<["name" := v]> role) "id" = Some i)
    by (intros v; rewrite <- Hi; unfold dict_get; rewrite lookup_insert_ne by done;
        reflexivity).
  unfold resolve_role. rewrite Hi.
  replace (is_None (dict_get role "name") && is_None (Some i)) with false
    by (destruct (dict_get role "name"); reflexivity).
  destruct c as [ci|]; cbn [is_None mbind prog_bind bind call run]; rewrite Hl;
    unfold subscript; destruct (d !! "name") as [[n|]|];
    cbn [raise_or_ret bind run]; rewrite ?Hget, ?Hid; cbn [is_None run];
    (eexists; split; [reflexivity | reflexivity]).
Qed.

End Edges.

(** X15.  State present never consults the assigned roles and state absent
    never the available ones; an empty list of desired roles, or an empty set
    on the side that is consulted, leaves nothing to add or remove. *)
Theorem state_selects_one_set (l available assigned other : list pydict) :
  compute_update_roles present l available assigned =
    compute_update_roles present l available other /\
  compute_update_roles absent l available assigned =
    compute_update_roles absent l other assigned /\
  compute_update_roles present l [] assigned = [] /\
  compute_update_roles absent l available [] = [] /\
  (forall st, compute_update_roles st [] available assigned = []).
Proof.
  rewrite !compute_update_roles_eq. cbn [compared_with matching List.filter length replicate].
  repeat split; induction l as [|role l IH]; simpl; auto.
Qed.

(** ** These properties at work on the sample server *)

Lemma group_id_given_witness :
  gid (Server.task present [Server.by_name "role_name1"]) <> None /\
  no_calls (fun c => is_group_lookup c
                     || other_group (gid (Server.task present [Server.by_name "role_name1"])) c)
    (run_main (Server.task present [Server.by_name "role_name1"]) Server.handle Server.s0).1.2.
Proof.
  assert (H : gid (Server.task present [Server.by_name "role_name1"]) <> None)
    by (simpl; discriminate).
  split; [exact H|].
  exact (group_id_given Server.handle _ Server.s0 H).
Defined.

Lemma client_lookup_skipped_witness :
  no_calls is_client_lookup
    (run_main (Server.task present [Server.by_name "role_name1"]) Server.handle Server.s0).1.2.
Proof.
  apply (client_lookup_skipped Server.handle
           (Server.task present [Server.by_name "role_name1"]) Server.s0).
  right. reflexivity.
Defined.

Lemma group_not_resolved_witness :
  run_main Server.lost_group_task Server.handle Server.s0 =
  (fail_json (Fmt "Could not fetch group for name %s:" [ArgStr (Some "nogroup")]),
   [Ev get_token (returned ());
    Ev (get_group_by_name (Some "nogroup") "master") (returned None)], Server.s0).
Proof.
  apply (group_not_resolved Server.handle Server.lost_group_task Server.s0 () Server.s0);
    reflexivity.
Defined.

Lemma client_not_found_witness :
  (run_main Server.lost_client_task Server.handle Server.s0).1.1 =
  fail_json (Fmt "Could not fetch client %s:" [ArgStr (Some "nobody")]).
Proof.
  rewrite (client_not_found Server.handle Server.lost_client_task
             Server.s0 () Server.s0 (Some "g1") [] Server.s0 Server.s0);
    [reflexivity | reflexivity | reflexivity | reflexivity | discriminate | reflexivity].
Defined.

Lemma no_roles_given_witness :
  exists t,
    run_main Server.no_roles_task Server.handle Server.s0 =
      (exit_json_msg (Fmt "Nothing to do (no roles specified)." []), t, Server.s0) /\
    count_calls is_kc t = 2.
Proof.
  eexists.
  apply (proj2 (no_roles_given Server.handle Server.no_roles_task Server.s0 eq_refl)
           (Some "g1") (Some "c1")).
  vm_compute. reflexivity.
Defined.

Lemma roles_sent_are_complete_witness :
  Forall has_name_and_id [Server.role "r1" "role_name1"].
Proof.
  apply (roles_sent_are_complete Server.handle
           (Server.task present [Server.by_name "role_name1"]) Server.s0
           (Ev (add_group_rolemapping (Some "g1") None [Server.role "r1" "role_name1"] "master")
               (returned ()))
           [Server.role "r1" "role_name1"]); [|reflexivity].
  apply list_elem_of_In. vm_compute. do 4 right. left. reflexivity.
Defined.

Lemma one_lookup_per_role_witness :
  exists res t s',
    run_main (Server.task absent [Server.by_name "role_name1"; Server.role "r1" "role_name1"])
      Server.handle Server.s1 = (exit_json res, t, s') /\
    count_calls is_role_lookup t = 2.
Proof.
  eassert (E : run_main
                 (Server.task absent [Server.by_name "role_name1"; Server.role "r1" "role_name1"])
                 Server.handle Server.s1 = (exit_json _, _, _)) by (vm_compute; reflexivity).
  eexists _, _, _. split; [exact E|].
  exact (one_lookup_per_role Server.handle _ _ _ _ _ _ E eq_refl).
Defined.

Lemma calls_of_a_run_witness :
  exists res t s',
    run_main (Server.task present [Server.by_name "role_name1"]) Server.handle Server.s0 =
      (exit_json res, t, s') /\
    count_calls is_kc t = 5 /\ count_calls is_fetch t = 3.
Proof.
  eassert (E : run_main (Server.task present [Server.by_name "role_name1"])
                 Server.handle Server.s0 = (exit_json _, _, _)) by (vm_compute; reflexivity).
  eexists _, _, _. split; [exact E|].
  exact (calls_of_a_run Server.handle _ _ _ _ _ _ E eq_refl).
Defined.

Lemma diff_payload_witness :
  exists res t s',
    run_main (Server.diff_task present [Server.by_name "role_name1"]) Server.handle Server.s0 =
      (exit_json res, t, s') /\
    exists r t0 s0,
      run (prelude (Server.diff_task present [Server.by_name "role_name1"]))
        Server.handle Server.s0 = (inl r, t0, s0) /\
      existing res = PyList (assigned_roles_before r) /\
      changed res =
        negb (bool_decide
                (update_roles (Server.diff_task present [Server.by_name "role_name1"]) r = [])) /\
      diff res =
        (if _diff (Server.diff_task present [Server.by_name "role_name1"]) && changed res
         then Some {| before := assigned_roles_before r;
                      after := update_roles
                                 (Server.diff_task present [Server.by_name "role_name1"]) r |}
         else None).
Proof.
  eassert (E : run_main (Server.diff_task present [Server.by_name "role_name1"])
                 Server.handle Server.s0 = (exit_json _, _, _)) by (vm_compute; reflexivity).
  eexists _, _, _. split; [exact E|].
  exact (diff_payload Server.handle _ _ _ _ _ E).
Defined.

Lemma check_mode_result_witness :
  exists res t s',
    run_main (with_check_mode true (Server.task present [Server.by_name "role_name1"]))
      Server.handle Server.s0 = (exit_json res, t, s') /\
    changed res = true /\ msg res = Fmt "" [] /\ end_state res = PyEmptyDict.
Proof.
  eassert (E : run_main (with_check_mode true (Server.task present [Server.by_name "role_name1"]))
                 Server.handle Server.s0 = (exit_json _, _, _)) by (vm_compute; reflexivity).
  eexists _, _, _. split; [exact E|]. split; [reflexivity|].
  exact (check_mode_result Server.handle
           (with_check_mode true (Server.task present [Server.by_name "role_name1"]))
           Server.s0 _ _ _ eq_refl E eq_refl).
Defined.

Lemma empty_role_list_witness :
  roles (Server.task absent []) = Some [] /\
  no_calls is_role_lookup (run_main (Server.task absent []) Server.handle Server.s1).1.2.
Proof.
  split; [reflexivity|].
  exact (proj1 (empty_role_list Server.handle (Server.task absent []) Server.s1 eq_refl)).
Defined.

Lemma realm_role_found_witness :
  run (resolve_role (Server.task present []) (Some "g1") None (Server.by_name "role_name1"))
    Server.handle Server.s0 =
  (inl (Server.role "r1" "role_name1"),
   [Ev (get_realm_role (Some "role_name1") "master")
       (returned (Some (Server.role "r1" "role_name1")))],
   Server.s0).
Proof.
  rewrite (realm_role_found Server.handle (Server.task present []) (Some "g1")
             (Server.by_name "role_name1") "role_name1" (Server.role "r1" "role_name1")
             Server.s0 Server.s0); [|reflexivity..].
  vm_compute. reflexivity.
Defined.

Lemma role_id_decides_name_witness :
  (run (resolve_role (Server.task absent []) (Some "g1") None
          (<["id" := Some "r1"]> (<["name" := Some "another_name"]> ∅)))
     Server.handle Server.s1).1.1 =
  inl (Server.role "r1" "role_name1").
Proof.
  destruct (role_id_decides_name Server.handle (Server.task absent []) (Some "g1") None
              (<["id" := Some "r1"]> (<["name" := Some "another_name"]> ∅))
              "r1" (Server.role "r1" "role_name1") Server.s1 Server.s1)
    as (e & -> & _); [reflexivity | reflexivity |].
  vm_compute. reflexivity.
Defined.
